(** * Android unlock patterns: the legal-move rule and the enumerator

    A shallow embedding of [main.py].  The 3x3 grid is numbered

<<
       0    1    2
       3    4    5
       6    7    8
>>

    Dots are Python integers ([Z]); a pattern is a Python list of dots
    ([list Z]).  A Python call that may raise is a computation in the
    error monad [py]; a function that falls off its last [if] without a
    [return] yields Python's [None], modelled by [option].  Console output
    ([print]) is not modelled; the file the script writes is modelled by
    its final contents. *)

From Stdlib Require Import String Ascii DecimalString.
From Stdlib Require Import ZArith List Bool Lia Sorted.
Import ListNotations.
Local Open Scope Z_scope.

(** ** Python computations *)

Inductive exn : Type :=
| TypeError        (* [x in None], [x in 3], ... *)
| IndexError       (* list index out of range *)
| ValueError       (* [list.remove(x)]: x not in list *)
| AssertionError.  (* a failed [assert] *)

Inductive py (A : Type) : Type :=
| Ok (a : A)
| Raise (e : exn).
Arguments Ok {A} a.
Arguments Raise {A} e.

Definition bind {A B : Type} (c : py A) (k : A -> py B) : py B :=
  match c with
  | Ok a => k a
  | Raise e => Raise e
  end.

Notation "x <- c ;; k" := (bind c (fun x => k))
  (at level 61, c at next level, right associativity).

(** [for x in xs: acc = body(acc, x)], stopping at the first exception. *)
Fixpoint for_each {A S : Type} (body : S -> A -> py S) (xs : list A) (acc : S)
  : py S :=
  match xs with
  | [] => Ok acc
  | x :: rest => acc' <- body acc x ;; for_each body rest acc'
  end.

(** [range(n)] and [range(a, b)]. *)
Definition range (n : Z) : list Z :=
  map Z.of_nat (seq 0 (Z.to_nat n)).

Definition range2 (a b : Z) : list Z :=
  map (fun k => a + Z.of_nat k) (seq 0 (Z.to_nat (b - a))).

(** [x in xs] on a list of integers. *)
Definition mem (x : Z) (xs : list Z) : bool := existsb (Z.eqb x) xs.

(** [x in c] where [c] may be [None]: membership in [None] raises. *)
Definition contains (x : Z) (c : option (list Z)) : py bool :=
  match c with
  | Some xs => Ok (mem x xs)
  | None => Raise TypeError
  end.

(** [xs.remove(x)]: drops the first occurrence, raises when there is none. *)
Fixpoint list_remove (x : Z) (xs : list Z) : py (list Z) :=
  match xs with
  | [] => Raise ValueError
  | y :: rest =>
      if x =? y then Ok rest
      else rest' <- list_remove x rest ;; Ok (y :: rest')
  end.

(** ** Grid topology *)

Definition getAdjacent (dot : Z) : py (option (list Z)) :=
  if dot =? 0 then Ok (Some [1; 3; 4])
  else if dot =? 1 then Ok (Some [0; 2; 4; 3; 5])
  else if dot =? 2 then Ok (Some [1; 5; 4])
  else if dot =? 3 then Ok (Some [0; 6; 4; 1; 7])
  else if dot =? 4 then Ok (Some [1; 3; 5; 7; 0; 3; 6; 8])
  else if dot =? 5 then Ok (Some [2; 8; 4; 7; 1])
  else if dot =? 6 then Ok (Some [3; 7; 4])
  else if dot =? 7 then Ok (Some [6; 8; 4; 3; 5])
  else if dot =? 8 then Ok (Some [7; 5; 4])
  else Ok None.

Definition getLinear (dot : Z) : py (option (list Z)) :=
  if dot =? 0 then Ok (Some [1; 3; 4; 2; 6; 8])
  else if dot =? 1 then Ok (Some [4; 7])
  else if dot =? 2 then Ok (Some [1; 4; 5; 0; 6; 8])
  else if dot =? 3 then Ok (Some [4; 5])
  else if dot =? 4 then Ok (Some [])
  else if dot =? 5 then Ok (Some [4; 3])
  else if dot =? 6 then Ok (Some [3; 4; 7; 0; 2; 8])
  else if dot =? 7 then Ok (Some [4; 1])
  else if dot =? 8 then Ok (Some [7; 5; 4; 6; 2; 0])
  else Ok None.

Definition getEndLinear (dot : Z) : py (option (list Z)) :=
  if dot =? 0 then Ok (Some [2; 6; 8])
  else if dot =? 1 then Ok (Some [7])
  else if dot =? 2 then Ok (Some [0; 8; 6])
  else if dot =? 3 then Ok (Some [5])
  else if dot =? 4 then Ok (Some [])
  else if dot =? 5 then Ok (Some [3])
  else if dot =? 6 then Ok (Some [0; 8; 2])
  else if dot =? 7 then Ok (Some [1])
  else if dot =? 8 then Ok (Some [6; 2; 0])
  else Ok None.

Definition getMiddle (dot1 dot2 : Z) : py (option Z) :=
  let lower := Z.min dot1 dot2 in
  let higher := Z.max dot1 dot2 in
  if (lower =? 0) && (higher =? 2) then Ok (Some 1)
  else if (lower =? 0) && (higher =? 6) then Ok (Some 3)
  else if (lower =? 0) && (higher =? 8) then Ok (Some 4)
  else if (lower =? 1) && (higher =? 7) then Ok (Some 4)
  else if (lower =? 2) && (higher =? 6) then Ok (Some 4)
  else if (lower =? 2) && (higher =? 8) then Ok (Some 5)
  else if (lower =? 3) && (higher =? 5) then Ok (Some 4)
  else if (lower =? 6) && (higher =? 8) then Ok (Some 7)
  else Ok None.

(** ** The legal-move rule *)

(** [next in currentPattern]; [next] may be the [None] that [getMiddle]
    returned, which is in no list of integers. *)
Definition isAlreadyVisited (currentPattern : list Z) (next : option Z)
  : py bool :=
  match next with
  | Some d => Ok (mem d currentPattern)
  | None => Ok false
  end.

(** [currentPattern[len(currentPattern)-1]]; on the empty list the index is
    -1, which is out of range. *)
Definition getLast (currentPattern : list Z) : py Z :=
  match currentPattern with
  | [] => Raise IndexError
  | d :: rest => Ok (last rest d)
  end.

Definition allDots : list Z := [0; 1; 2; 3; 4; 5; 6; 7; 8].

(** One turn of the loop of [getAllowedNextDots]; the loop state is
    [candidateDots]. *)
Definition allowedStep (currentPattern : list Z) (candidateDots : list Z)
  (dot : Z) : py (list Z) :=
  visited <- isAlreadyVisited currentPattern (Some dot) ;;
  if visited : bool then list_remove dot candidateDots
  else
    l1 <- getLast currentPattern ;;
    adj <- getAdjacent l1 ;;
    isAdj <- contains dot adj ;;
    if isAdj : bool then Ok candidateDots
    else
      l2 <- getLast currentPattern ;;
      ends <- getEndLinear l2 ;;
      isEnd <- contains dot ends ;;
      if isEnd : bool then
        l3 <- getLast currentPattern ;;
        intersect <- getMiddle dot l3 ;;
        seen <- isAlreadyVisited currentPattern intersect ;;
        if seen : bool then Ok candidateDots
        else list_remove dot candidateDots
      else Ok candidateDots.

Definition getAllowedNextDots (currentPattern : list Z) : py (list Z) :=
  for_each (allowedStep currentPattern) allDots allDots.

(** ** The self-test *)

Definition assert (b : bool) : py unit :=
  if b then Ok tt else Raise AssertionError.

(** [assert i in getAllowedNextDots(pattern)] (or [not in], when [want] is
    [false]) for every [i] of [dots]. *)
Definition assertEach (want : bool) (pattern dots : list Z) : py unit :=
  for_each (fun _ i =>
              allowed <- getAllowedNextDots pattern ;;
              assert (Bool.eqb (mem i allowed) want)) dots tt.

Definition test : py unit :=
  lin0 <- getLinear 0 ;;
  has6 <- contains 6 lin0 ;;
  _ <- assert has6 ;;
  lin0' <- getLinear 0 ;;
  has5 <- contains 5 lin0' ;;
  _ <- assert (negb has5) ;;
  let pattern1 := [0; 1; 4] in
  v1 <- isAlreadyVisited pattern1 (Some 1) ;;
  _ <- assert v1 ;;
  v3 <- isAlreadyVisited pattern1 (Some 3) ;;
  _ <- assert (negb v3) ;;
  let testPattern := [0; 3; 6] in
  _ <- assertEach true testPattern [1; 4; 7; 5] ;;
  _ <- assertEach false testPattern [0; 2; 3; 6; 8] ;;
  let testPattern2 := [2; 1; 5; 4; 3; 0] in
  _ <- assertEach true testPattern2 [6; 7; 8] ;;
  _ <- assertEach false testPattern2 [2; 1; 5; 4; 3; 0] ;;
  let testPattern3 := [0; 7] in
  _ <- assertEach true testPattern3 [4] ;;
  _ <- assertEach false testPattern3 [1] ;;
  let testPattern4 := [0; 4; 7] in
  assertEach true testPattern4 [1].

(** ** The enumerator *)

(** [getNextOptions]: one copy of the pattern per allowed dot, with the dot
    appended. *)
Definition getNextOptions (currentPattern : list Z) : py (list (list Z)) :=
  x <- getAllowedNextDots currentPattern ;;
  for_each (fun allPatterns i =>
              let candidate := currentPattern ++ [i] in
              Ok (allPatterns ++ [candidate])) x [].

(** In [recursivelyEvaluate] the variable [currentPattern] first holds the
    start pattern, a list of dots, and after the first turn of the loop a
    list of patterns.  An element of such a list is an [entry]. *)
Inductive entry : Type :=
| Dot (d : Z)
| Pattern (p : list Z).

(** Reading a list of entries as one pattern, as [getNextOptions] does with
    [currentPattern] when [i == 0].  That turn is the first one, so the list
    is still the start pattern and the [Pattern] case is never reached. *)
Fixpoint dotsOf (xs : list entry) : py (list Z) :=
  match xs with
  | [] => Ok []
  | Dot d :: rest => ds <- dotsOf rest ;; Ok (d :: ds)
  | Pattern _ :: _ => Raise TypeError
  end.

(** Reading one entry as a pattern, as [getNextOptions(branch)] does.  An
    integer is no container: [next in 3] raises. *)
Definition patternOf (branch : entry) : py (list Z) :=
  match branch with
  | Pattern p => Ok p
  | Dot _ => Raise TypeError
  end.

(** One turn of the loop of [recursivelyEvaluate]. *)
Definition evaluateTurn (currentPattern : list entry) (i : Z)
  : py (list entry) :=
  if i =? 0 then
    start <- dotsOf currentPattern ;;
    nextOpts <- getNextOptions start ;;
    Ok (map Pattern nextOpts)
  else
    for_each
      (fun nextOpts branch =>
         b <- patternOf branch ;;
         opts <- getNextOptions b ;;
         Ok (nextOpts ++ map Pattern opts))
      currentPattern [].

Definition recursivelyEvaluate (patternStart targetLength : Z)
  : py (list entry) :=
  let lstStart := [Dot patternStart] in
  let currentLength := Z.of_nat (length lstStart) in
  let currentPattern := lstStart in
  let iterationsToDo := targetLength - currentLength in
  for_each evaluateTurn (range iterationsToDo) currentPattern.

Definition findAllPatterns (targetLength : Z) : py (list entry) :=
  for_each
    (fun allPatterns i =>
       thisSet <- recursivelyEvaluate i targetLength ;;
       Ok (allPatterns ++ thisSet))
    (range 9) [].

Definition findAllCombinations (maxLength : Z) : py (list entry) :=
  for_each
    (fun allPatterns i =>
       thisSet <- findAllPatterns i ;;
       Ok (allPatterns ++ thisSet))
    (range2 4 (maxLength + 1)) [].

(** The script: the self-test, then every pattern of 4 to 9 dots. *)
Definition main : py (list entry) :=
  _ <- test ;;
  findAllCombinations 9.

(** ** The output file *)

(** [str(n)] of an integer: its decimal digits, with a minus sign when
    negative. *)
Definition str (n : Z) : string := NilZero.string_of_int (Z.to_int n).

Definition newline : string := String "010"%char EmptyString.

(** One turn of the writing loop: the digits of the pattern, then a
    newline.  [for result in pattern] raises when the entry is an integer. *)
Definition lineOf (pattern : entry) : py string :=
  match pattern with
  | Pattern p =>
      toWrite <- for_each (fun toWrite result =>
                             Ok (toWrite ++ str result)%string)
                          p EmptyString ;;
      Ok (toWrite ++ newline)%string
  | Dot _ => Raise TypeError
  end.

(** What the file holds once every entry of [x] is written.  (When an
    entry raises, the lines before it are on disk already; the model keeps
    the exception only.) *)
Definition writeAll (x : list entry) : py string :=
  for_each (fun written pattern =>
              line <- lineOf pattern ;;
              Ok (written ++ line)%string)
           x EmptyString.

(** The whole script: the self-test, the enumeration, the file. *)
Definition script : py string :=
  _ <- test ;;
  x <- findAllCombinations 9 ;;
  writeAll x.

(** ** The rule and the enumerator as pure functions

    The proofs below go through these: [allowedb] decides whether the loop
    of [getAllowedNextDots] keeps a dot, [levelFrom] lists what
    [recursivelyEvaluate] holds after a number of turns. *)

(** [d in getAdjacent(a)] and [d in getEndLinear(a)] as booleans ([false]
    where the table has no entry). *)
Definition adjacentb (a d : Z) : bool :=
  match getAdjacent a with
  | Ok (Some l) => mem d l
  | _ => false
  end.

Definition endLinearb (a d : Z) : bool :=
  match getEndLinear a with
  | Ok (Some l) => mem d l
  | _ => false
  end.

(** [getMiddle(a, b) in pat]. *)
Definition middleVisited (pat : list Z) (a b : Z) : bool :=
  match getMiddle a b with
  | Ok (Some m) => mem m pat
  | _ => false
  end.

(** The final dot of a pattern. *)
Definition lastDot (pat : list Z) : Z := last pat 0.

(** A dot is kept when it is unvisited and is not a far end of a line from
    the last dot whose middle is unvisited. *)
Definition allowedb (pat : list Z) (d : Z) : bool :=
  negb (mem d pat) &&
  negb (endLinearb (lastDot pat) d && negb (middleVisited pat (lastDot pat) d)).

Definition extend (pat : list Z) : list (list Z) :=
  map (fun i => pat ++ [i]) (filter (allowedb pat) allDots).

Fixpoint levelFrom (start : Z) (n : nat) : list (list Z) :=
  match n with
  | O => [[start]]
  | S k => flat_map extend (levelFrom start k)
  end.

(** Every pattern of [n + 1] dots, by start dot. *)
Definition patternsOfSize (n : nat) : list (list Z) :=
  flat_map (fun start => levelFrom start n) allDots.

(** Every pattern of 4 to [maxLength] dots, shortest first. *)
Definition allCombinations (maxLength : Z) : list (list Z) :=
  flat_map (fun L => patternsOfSize (Z.to_nat (L - 1)))
           (range2 4 (maxLength + 1)).

(** ** The symmetries of the grid

    Dot [d] sits in row [d / 3] and column [d mod 3].  The eight
    symmetries of the square act on the coordinates. *)

Definition row (d : Z) : Z := d / 3.
Definition col (d : Z) : Z := d mod 3.
Definition dotAt (r c : Z) : Z := 3 * r + c.

Inductive symmetry : Type :=
| Id | Rot90 | Rot180 | Rot270 | FlipH | FlipV | FlipD | FlipA.

Definition act (g : symmetry) (d : Z) : Z :=
  let r := row d in
  let c := col d in
  match g with
  | Id => dotAt r c
  | Rot90 => dotAt c (2 - r)
  | Rot180 => dotAt (2 - r) (2 - c)
  | Rot270 => dotAt (2 - c) r
  | FlipH => dotAt r (2 - c)
  | FlipV => dotAt (2 - r) c
  | FlipD => dotAt c r
  | FlipA => dotAt (2 - c) (2 - r)
  end.

Definition inverse (g : symmetry) : symmetry :=
  match g with
  | Rot90 => Rot270
  | Rot270 => Rot90
  | other => other
  end.

(** Squared distance between two dots. *)
Definition dist2 (a b : Z) : Z :=
  (row a - row b) * (row a - row b) + (col a - col b) * (col a - col b).

(** Relabelling an entry of a result list. *)
Definition relabel (g : symmetry) (e : entry) : entry :=
  match e with
  | Dot d => Dot (act g d)
  | Pattern p => Pattern (map (act g) p)
  end.

(** ** Vocabulary of the statements *)

(** A dot of the grid. *)
Definition isDot (d : Z) : Prop := 0 <= d < 9.

(** A pattern on the grid: at least one dot, every dot one of the nine. *)
Definition onGrid (pat : list Z) : Prop := pat <> [] /\ Forall isDot pat.

(** The rule as the design document words it: the dot is adjacent to the
    last one, or it is a far end of a line from the last one and the dot in
    the middle is visited. *)
Definition documentedRule (pat : list Z) (p : Z) : Prop :=
  adjacentb (lastDot pat) p = true \/
  (endLinearb (lastDot pat) p = true /\
   middleVisited pat p (lastDot pat) = true).

(** A move off every line of the grid, such as 0 -> 5 or 0 -> 7: the
    target is neither listed as adjacent nor as a far end of a line. *)
Definition offLine (a b : Z) : Prop :=
  adjacentb a b = false /\ endLinearb a b = false.

(** [getMiddle(a, b)] is a dot of [visited]. *)
Definition midpointIn (visited : list Z) (a b : Z) : Prop :=
  exists m, getMiddle a b = Ok (Some m) /\ In m visited.

Definition documentedMove (visited : list Z) (a b : Z) : Prop :=
  adjacentb a b = true \/ (endLinearb a b = true /\ midpointIn visited a b).

Definition actualMove (visited : list Z) (a b : Z) : Prop :=
  documentedMove visited a b \/ offLine a b.

(** Every consecutive pair [(a, b)] of [p] obeys [rule], given the dots
    that come before [b]. *)
Definition everyMove (rule : list Z -> Z -> Z -> Prop) (p : list Z) : Prop :=
  forall pre a b post, p = pre ++ a :: b :: post -> rule (pre ++ [a]) a b.

(** The neighbours of a dot by a king's move on the grid. *)
Definition kingNeighbours (p : Z) : list Z :=
  filter (fun d => negb (d =? p)
                   && (Z.abs (row d - row p) <=? 1)
                   && (Z.abs (col d - col p) <=? 1)) allDots.

(** The dots two steps away from [p] along a row, a column or a diagonal:
    each coordinate differs by 0 or 2, and not both by 0. *)
Definition farEnds (p : Z) : list Z :=
  filter (fun d => negb (d =? p)
                   && ((Z.abs (row d - row p) =? 0)
                       || (Z.abs (row d - row p) =? 2))
                   && ((Z.abs (col d - col p) =? 0)
                       || (Z.abs (col d - col p) =? 2))) allDots.

(** How often the character [c] occurs in [s]. *)
Fixpoint countChar (c : ascii) (s : string) : nat :=
  match s with
  | EmptyString => O
  | String x rest =>
      ((if Ascii.eqb x c then 1 else 0) + countChar c rest)%nat
  end.

(** The line of a pattern, as a pure function. *)
Definition digitsOf (p : list Z) : string :=
  fold_right (fun d rest => (str d ++ rest)%string) EmptyString p.

(** The dots of [pat] can be moved through in order: they are distinct
    dots of the grid and every move is one the rule allows. *)
Definition validPattern (p : list Z) : Prop :=
  Forall isDot p /\ NoDup p /\ everyMove actualMove p.

(** The decimal digit of a dot. *)
Definition digit (d : Z) : ascii := ascii_of_nat (48 + Z.to_nat d).

(** The number of lines of a file: its newline characters, as [wc -l]
    counts them. *)
Definition linesWritten (content : string) : nat :=
  countChar "010"%char content.

(** ** Facts about the loop combinators *)

Lemma isDot_cases (d : Z) :
  isDot d ->
  d = 0 \/ d = 1 \/ d = 2 \/ d = 3 \/ d = 4 \/ d = 5 \/ d = 6 \/ d = 7 \/ d = 8.
Proof. unfold isDot. lia. Qed.

Lemma isDot_allDots (d : Z) : isDot d <-> In d allDots.
Proof.
  unfold isDot, allDots. simpl. lia.
Qed.

Ltac each_dot d H :=
  apply isDot_cases in H;
  destruct H as [-> | [-> | [-> | [-> | [-> | [-> | [-> | [-> | ->]]]]]]]].

Lemma mem_In (x : Z) (xs : list Z) : mem x xs = true <-> In x xs.
Proof.
  unfold mem. rewrite existsb_exists. split.
  - intros [y [Hy Heq]]. apply Z.eqb_eq in Heq. now subst.
  - intros H. exists x. split; [assumption | apply Z.eqb_refl].
Qed.

Lemma mem_not_In (x : Z) (xs : list Z) : mem x xs = false <-> ~ In x xs.
Proof.
  rewrite <- mem_In. destruct (mem x xs); split; congruence.
Qed.

Lemma for_each_ext {A S : Type} (f g : S -> A -> py S) (xs : list A) :
  (forall acc x, In x xs -> f acc x = g acc x) ->
  forall acc, for_each f xs acc = for_each g xs acc.
Proof.
  induction xs as [| x rest IH]; intros Hfg acc; simpl; [reflexivity|].
  rewrite Hfg by (now left).
  destruct (g acc x) as [acc' | e]; simpl; [| reflexivity].
  apply IH. intros acc0 y Hy. apply Hfg. now right.
Qed.

(** A loop whose body appends what [f] returns computes a [flat_map], as
    long as [f] does not raise on the elements it meets. *)
Lemma for_each_extend {A B : Type} (f : A -> py (list B)) (g : A -> list B)
  (xs : list A) :
  (forall x, In x xs -> f x = Ok (g x)) ->
  forall acc,
    for_each (fun acc x => ys <- f x ;; Ok (acc ++ ys)) xs acc
    = Ok (acc ++ flat_map g xs).
Proof.
  induction xs as [| x rest IH]; intros Hf acc; simpl.
  - now rewrite app_nil_r.
  - rewrite Hf by (now left). simpl.
    rewrite IH by (intros y Hy; apply Hf; now right).
    now rewrite app_assoc.
Qed.

Lemma for_each_append {A B : Type} (h : A -> B) (xs : list A) (acc : list B) :
  for_each (fun acc x => Ok (acc ++ [h x])) xs acc = Ok (acc ++ map h xs).
Proof.
  revert acc. induction xs as [| x rest IH]; intros acc; simpl.
  - now rewrite app_nil_r.
  - rewrite IH. now rewrite <- app_assoc.
Qed.

Lemma filter_twice {A : Type} (f g : A -> bool) (l : list A) :
  filter f (filter g l) = filter (fun x => g x && f x) l.
Proof.
  induction l as [| x l IH]; [reflexivity|]. simpl.
  destruct (g x); simpl; [destruct (f x) |]; now rewrite IH.
Qed.

(** Removing a dot that occurs once is a filter. *)
Lemma list_remove_filter (d : Z) (c : list Z) :
  NoDup c -> In d c ->
  list_remove d c = Ok (filter (fun x => negb (x =? d)) c).
Proof.
  induction c as [| y rest IH]; intros Hnd Hin; [contradiction|].
  inversion Hnd as [| ? ? Hy Hrest]; subst. simpl.
  destruct (Z.eqb_spec d y) as [-> | Hne].
  - rewrite Z.eqb_refl. simpl. f_equal.
    symmetry. apply forallb_filter_id. apply forallb_forall.
    intros x Hx. apply negb_true_iff. apply Z.eqb_neq. congruence.
  - destruct Hin as [Heq | Hin]; [congruence|].
    rewrite IH by assumption. simpl.
    replace (y =? d) with false by (symmetry; apply Z.eqb_neq; congruence).
    reflexivity.
Qed.

(** ** The loop of [getAllowedNextDots] *)

Lemma getLast_lastDot (pat : list Z) :
  pat <> [] -> getLast pat = Ok (lastDot pat).
Proof.
  destruct pat as [| d rest]; [congruence|]. intros _.
  unfold getLast, lastDot. f_equal. generalize 0 as e.
  revert d. induction rest as [| y rest IH]; intros d e; [reflexivity|].
  change (last (d :: y :: rest) e) with (last (y :: rest) e).
  transitivity (last rest y); [symmetry |]; apply IH.
Qed.

Section RuleLoop.

Variable pat : list Z.
Hypothesis Hne : pat <> [].
Hypothesis Hlast : isDot (lastDot pat).

(** One turn keeps the candidates when the dot is allowed and removes the
    dot otherwise. *)
Lemma allowedStep_spec (c : list Z) (dot : Z) :
  isDot dot ->
  allowedStep pat c dot
  = if allowedb pat dot then Ok c else list_remove dot c.
Proof.
  intros Hdot. pose proof Hlast as Hl.
  unfold allowedStep, allowedb, middleVisited, endLinearb.
  rewrite (getLast_lastDot pat Hne).
  unfold isAlreadyVisited at 1. cbn [bind].
  destruct (mem dot pat) eqn:Hvis; cbn [negb andb]; [reflexivity|].
  remember (lastDot pat) as a eqn:Ha. clear Ha.
  each_dot a Hl; each_dot dot Hdot; cbn;
    try reflexivity;
    match goal with
    | |- context [mem ?m pat] => destruct (mem m pat); reflexivity
    end.
Qed.

Lemma for_each_allowedStep (ds : list Z) :
  forall c,
    NoDup ds -> Forall isDot ds -> incl ds c -> NoDup c ->
    for_each (allowedStep pat) ds c
    = Ok (filter (fun x => negb (mem x ds) || allowedb pat x) c).
Proof.
  induction ds as [| d ds IH]; intros c Hnd Hdots Hincl Hc.
  - simpl. f_equal. symmetry. apply forallb_filter_id.
    apply forallb_forall. reflexivity.
  - inversion Hnd as [| ? ? Hd Hnd']; subst.
    inversion Hdots as [| ? ? Hdd Hdots']; subst.
    cbn [for_each]. rewrite allowedStep_spec by assumption.
    assert (Hdc : In d c) by (apply Hincl; now left).
    assert (Hic : incl ds c) by (intros x Hx; apply Hincl; now right).
    destruct (allowedb pat d) eqn:Hal; cbn [bind].
    + rewrite IH by assumption. f_equal. apply filter_ext.
      intros x. cbn [mem existsb].
      destruct (Z.eqb_spec x d) as [-> | Hne']; [| reflexivity].
      rewrite Hal. cbn. now rewrite orb_true_r.
    + rewrite list_remove_filter by assumption. cbn [bind].
      rewrite IH; try assumption.
      * f_equal. rewrite filter_twice. apply filter_ext.
        intros x. cbn [mem existsb].
        destruct (Z.eqb_spec x d) as [-> | Hne']; cbn.
        -- now rewrite Hal.
        -- reflexivity.
      * intros x Hx. apply filter_In. split; [now apply Hic|].
        apply negb_true_iff. apply Z.eqb_neq. intros ->. contradiction.
      * now apply NoDup_filter.
Qed.

(** [getAllowedNextDots] never raises on a pattern that ends in a dot of
    the grid, and returns the allowed dots in increasing order. *)
Lemma getAllowedNextDots_spec :
  getAllowedNextDots pat = Ok (filter (allowedb pat) allDots).
Proof.
  unfold getAllowedNextDots. rewrite for_each_allowedStep.
  - apply (f_equal Ok). apply filter_ext_in. intros x Hx.
    apply mem_In in Hx. now rewrite Hx.
  - unfold allDots. repeat constructor; simpl; intuition lia.
  - apply Forall_forall. intros x. apply isDot_allDots.
  - apply incl_refl.
  - unfold allDots. repeat constructor; simpl; intuition lia.
Qed.

End RuleLoop.

(** ** The enumerator computes [levelFrom] *)

Lemma lastDot_snoc (q : list Z) (d : Z) : lastDot (q ++ [d]) = d.
Proof. unfold lastDot. apply last_last. Qed.

Lemma onGrid_lastDot (pat : list Z) : onGrid pat -> isDot (lastDot pat).
Proof.
  intros [Hne Hall]. destruct (exists_last Hne) as [q [d ->]].
  rewrite lastDot_snoc. apply Forall_app in Hall as [_ Hd].
  now inversion Hd.
Qed.

Lemma in_extend (q p : list Z) :
  In p (extend q) <-> exists d, p = q ++ [d] /\ isDot d /\ allowedb q d = true.
Proof.
  unfold extend. rewrite in_map_iff. split.
  - intros [d [<- Hd]]. apply filter_In in Hd as [Hd Hal].
    exists d. now rewrite isDot_allDots.
  - intros [d [-> [Hd Hal]]]. exists d. split; [reflexivity|].
    apply filter_In. now rewrite <- isDot_allDots.
Qed.

Lemma extend_onGrid (q p : list Z) : onGrid q -> In p (extend q) -> onGrid p.
Proof.
  intros [_ Hq] Hp. apply in_extend in Hp as [d [-> [Hd _]]]. split.
  - intros H. now apply app_eq_nil in H as [_ H].
  - apply Forall_app. split; [assumption | now constructor].
Qed.

Lemma levelFrom_onGrid (s : Z) (n : nat) (p : list Z) :
  isDot s -> In p (levelFrom s n) -> onGrid p.
Proof.
  intros Hs. revert p. induction n as [| n IH]; intros p Hp.
  - destruct Hp as [<- | []]. split; [discriminate | now constructor].
  - cbn [levelFrom] in Hp. apply in_flat_map in Hp as [q [Hq Hp]].
    exact (extend_onGrid q p (IH q Hq) Hp).
Qed.

Lemma map_flat_map {A B C : Type} (f : B -> C) (g : A -> list B) (l : list A) :
  map f (flat_map g l) = flat_map (fun x => map f (g x)) l.
Proof.
  induction l as [| x l IH]; [reflexivity|]. simpl.
  now rewrite map_app, IH.
Qed.

Lemma getNextOptions_spec (pat : list Z) :
  onGrid pat -> getNextOptions pat = Ok (extend pat).
Proof.
  intros Hpat. unfold getNextOptions.
  rewrite getAllowedNextDots_spec by (apply Hpat || now apply onGrid_lastDot).
  cbn [bind]. cbv zeta.
  now rewrite (for_each_append (fun i => pat ++ [i])).
Qed.

(** The loop over the branches, from the second turn on. *)
Lemma branches_loop (ps : list (list Z)) (acc : list entry) :
  Forall onGrid ps ->
  for_each
    (fun nextOpts branch =>
       b <- patternOf branch ;;
       opts <- getNextOptions b ;;
       Ok (nextOpts ++ map Pattern opts))
    (map Pattern ps) acc
  = Ok (acc ++ map Pattern (flat_map extend ps)).
Proof.
  intros Hps. revert acc.
  induction Hps as [| p ps Hp _ IH]; intros acc; cbn [map for_each flat_map].
  - now rewrite app_nil_r.
  - cbn [patternOf bind]. rewrite getNextOptions_spec by assumption.
    cbn [bind]. rewrite IH, map_app. now rewrite app_assoc.
Qed.

Lemma later_turns (s : Z) (k : nat) :
  isDot s ->
  forall j m,
    (1 <= j)%nat ->
    for_each evaluateTurn (map Z.of_nat (seq j k)) (map Pattern (levelFrom s m))
    = Ok (map Pattern (levelFrom s (m + k))).
Proof.
  intros Hs. induction k as [| k IH]; intros j m Hj; cbn [seq map for_each].
  - now rewrite Nat.add_0_r.
  - unfold evaluateTurn at 1.
    replace (Z.of_nat j =? 0) with false by (symmetry; apply Z.eqb_neq; lia).
    rewrite branches_loop
      by (apply Forall_forall; intros p Hp;
          exact (levelFrom_onGrid s m p Hs Hp)).
    cbn [bind app].
    change (flat_map extend (levelFrom s m)) with (levelFrom s (S m)).
    replace (m + S k)%nat with (S m + k)%nat by lia.
    now rewrite IH by lia.
Qed.

(** With a target length of at most one the loop does not run, and the
    result is the start pattern itself: a list that holds the start dot. *)
Lemma recursivelyEvaluate_short (s L : Z) :
  L <= 1 -> recursivelyEvaluate s L = Ok [Dot s].
Proof.
  intros HL. unfold recursivelyEvaluate, range.
  change (Z.of_nat (length [Dot s])) with 1.
  replace (Z.to_nat (L - 1)) with O by lia. reflexivity.
Qed.

Lemma recursivelyEvaluate_spec (s L : Z) :
  isDot s -> 2 <= L ->
  recursivelyEvaluate s L
  = Ok (map Pattern (levelFrom s (Z.to_nat (L - 1)))).
Proof.
  intros Hs HL. unfold recursivelyEvaluate, range.
  change (Z.of_nat (length [Dot s])) with 1.
  destruct (Z.to_nat (L - 1)) as [| k] eqn:Hk; [lia|].
  cbn [seq map for_each]. unfold evaluateTurn at 1.
  cbn [Z.of_nat Z.eqb dotsOf bind].
  rewrite getNextOptions_spec
    by (split; [discriminate | now constructor]).
  cbn [bind].
  replace (extend [s]) with (levelFrom s 1) by apply app_nil_r.
  now rewrite later_turns by (assumption || lia).
Qed.

Lemma findAllPatterns_short (L : Z) :
  L <= 1 -> findAllPatterns L = Ok (map Dot allDots).
Proof.
  intros HL. unfold findAllPatterns.
  rewrite (for_each_extend _ (fun i => [Dot i]))
    by (intros i _; now apply recursivelyEvaluate_short).
  reflexivity.
Qed.

Lemma findAllPatterns_spec (L : Z) :
  2 <= L ->
  findAllPatterns L = Ok (map Pattern (patternsOfSize (Z.to_nat (L - 1)))).
Proof.
  intros HL. unfold findAllPatterns.
  rewrite (for_each_extend _
             (fun i => map Pattern (levelFrom i (Z.to_nat (L - 1))))).
  - cbn [app]. unfold patternsOfSize. now rewrite map_flat_map.
  - intros i Hi. apply recursivelyEvaluate_spec; [| assumption].
    now apply isDot_allDots.
Qed.

Lemma findAllCombinations_spec (maxLength : Z) :
  findAllCombinations maxLength = Ok (map Pattern (allCombinations maxLength)).
Proof.
  unfold findAllCombinations.
  rewrite (for_each_extend _
             (fun L => map Pattern (patternsOfSize (Z.to_nat (L - 1))))).
  - cbn [app]. unfold allCombinations. now rewrite map_flat_map.
  - intros L HL. apply findAllPatterns_spec.
    unfold range2 in HL. apply in_map_iff in HL as [k [<- _]]. lia.
Qed.

(** ** The rule is invariant under the symmetries *)

Lemma getMiddle_isDot (a d m : Z) :
  getMiddle a d = Ok (Some m) -> isDot m.
Proof.
  unfold getMiddle, isDot.
  repeat match goal with
         | |- context [if ?b then _ else _] => destruct b
         end; intros H; inversion H; lia.
Qed.

Lemma in_patternsOfSize (n : nat) (p : list Z) :
  In p (patternsOfSize n) <-> exists s, isDot s /\ In p (levelFrom s n).
Proof.
  unfold patternsOfSize. rewrite in_flat_map.
  split; intros [s [Hs Hp]]; exists s; split; trivial;
    now apply isDot_allDots.
Qed.

Section Symmetry.

Variable g : symmetry.

Lemma act_isDot (d : Z) : isDot d -> isDot (act g d).
Proof.
  intros H. each_dot d H; destruct g; vm_compute; intuition congruence.
Qed.

Lemma act_inverse (d : Z) :
  isDot d -> act g (act (inverse g) d) = d.
Proof. intros H. each_dot d H; destruct g; reflexivity. Qed.

Lemma inverse_act (d : Z) :
  isDot d -> act (inverse g) (act g d) = d.
Proof. intros H. each_dot d H; destruct g; reflexivity. Qed.

Lemma act_isometry (a b : Z) :
  isDot a -> isDot b -> dist2 (act g a) (act g b) = dist2 a b.
Proof.
  intros Ha Hb. each_dot a Ha; each_dot b Hb; destruct g; reflexivity.
Qed.

Lemma act_endLinear (a d : Z) :
  isDot a -> isDot d -> endLinearb (act g a) (act g d) = endLinearb a d.
Proof.
  intros Ha Hd. each_dot a Ha; each_dot d Hd; destruct g; reflexivity.
Qed.

Lemma act_getMiddle (a d : Z) :
  isDot a -> isDot d ->
  getMiddle (act g a) (act g d)
  = match getMiddle a d with
    | Ok (Some m) => Ok (Some (act g m))
    | other => other
    end.
Proof.
  intros Ha Hd. each_dot a Ha; each_dot d Hd; destruct g; reflexivity.
Qed.

Lemma mem_act (q : list Z) (d : Z) :
  Forall isDot q -> isDot d -> mem (act g d) (map (act g) q) = mem d q.
Proof.
  intros Hq Hd. induction Hq as [| x q Hx _ IH]; [reflexivity|].
  cbn [map mem existsb]. fold (mem (act g d) (map (act g) q)).
  fold (mem d q). rewrite IH. f_equal.
  destruct (Z.eqb_spec d x) as [-> | Hne]; [apply Z.eqb_refl|].
  apply Z.eqb_neq. intros Heq. apply Hne.
  rewrite <- (inverse_act d), <- (inverse_act x) by assumption.
  now rewrite Heq.
Qed.

Lemma lastDot_map (q : list Z) :
  q <> [] -> lastDot (map (act g) q) = act g (lastDot q).
Proof.
  intros Hne. destruct (exists_last Hne) as [q' [d ->]].
  rewrite map_app. cbn [map]. now rewrite !lastDot_snoc.
Qed.

Lemma allowedb_act (q : list Z) (d : Z) :
  onGrid q -> isDot d ->
  allowedb (map (act g) q) (act g d) = allowedb q d.
Proof.
  intros Hq Hd. assert (Hl := onGrid_lastDot q Hq). destruct Hq as [Hne Hq].
  unfold allowedb, middleVisited.
  rewrite lastDot_map, mem_act, act_endLinear, act_getMiddle by assumption.
  destruct (getMiddle (lastDot q) d) as [[m |] | e] eqn:Hm; try reflexivity.
  rewrite mem_act; [reflexivity | assumption |].
  eapply getMiddle_isDot; eauto.
Qed.

Lemma levelFrom_act (s : Z) (n : nat) (p : list Z) :
  isDot s ->
  In p (levelFrom s n) -> In (map (act g) p) (levelFrom (act g s) n).
Proof.
  intros Hs. revert p. induction n as [| n IH]; intros p Hp.
  - destruct Hp as [<- | []]. now left.
  - cbn [levelFrom] in *. apply in_flat_map in Hp as [q [Hq Hp]].
    apply in_flat_map. exists (map (act g) q). split; [now apply IH|].
    apply in_extend in Hp as [d [-> [Hd Hal]]].
    apply in_extend. exists (act g d). split; [| split].
    + now rewrite map_app.
    + now apply act_isDot.
    + rewrite allowedb_act; try assumption.
      exact (levelFrom_onGrid s n q Hs Hq).
Qed.

Lemma patternsOfSize_act (n : nat) (p : list Z) :
  In p (patternsOfSize n) -> In (map (act g) p) (patternsOfSize n).
Proof.
  rewrite !in_patternsOfSize. intros [s [Hs Hp]].
  exists (act g s). split; [now apply act_isDot | now apply levelFrom_act].
Qed.

Lemma map_act_inverse (p : list Z) :
  Forall isDot p -> map (act g) (map (act (inverse g)) p) = p.
Proof.
  intros Hp. rewrite map_map. rewrite <- (map_id p) at 2.
  apply map_ext_in. intros d Hd. apply act_inverse.
  now apply (proj1 (Forall_forall _ _) Hp).
Qed.

End Symmetry.

Lemma act_faithful (g h : symmetry) :
  (forall d, isDot d -> act g d = act h d) -> g = h.
Proof.
  intros H.
  assert (H0 := H 0 ltac:(unfold isDot; lia)).
  assert (H1 := H 1 ltac:(unfold isDot; lia)).
  destruct g, h; vm_compute in H0, H1; congruence.
Qed.

(** ** The legal-move rule: statements *)

Lemma getMiddle_sym (a b : Z) : getMiddle a b = getMiddle b a.
Proof. unfold getMiddle. now rewrite Z.min_comm, Z.max_comm. Qed.

Lemma middleVisited_sym (pat : list Z) (a b : Z) :
  middleVisited pat a b = middleVisited pat b a.
Proof. unfold middleVisited. now rewrite getMiddle_sym. Qed.

Lemma adjacent_not_endLinear (a d : Z) :
  isDot a -> isDot d -> adjacentb a d = true -> endLinearb a d = false.
Proof.
  intros Ha Hd. each_dot a Ha; each_dot d Hd; vm_compute; congruence.
Qed.

Lemma in_allowed (pat : list Z) (d : Z) :
  In d (filter (allowedb pat) allDots) <-> isDot d /\ allowedb pat d = true.
Proof. now rewrite filter_In, isDot_allDots. Qed.

(** The far end of a line has a middle, which is a dot and is itself no
    far end. *)
Lemma endLinear_middle (a d : Z) :
  isDot a -> isDot d -> endLinearb a d = true ->
  exists m, getMiddle a d = Ok (Some m) /\ isDot m /\ endLinearb a m = false.
Proof.
  intros Ha Hd. each_dot a Ha; each_dot d Hd; vm_compute; intros H;
    try discriminate H; eexists; repeat split; discriminate.
Qed.

(** C1, as the design document states it, fails: after the one-dot pattern
    [0] the rule returns dot 5, which is neither adjacent to 0 nor the far
    end of a line through 0. *)
Lemma documented_rule_misses_05 :
  exists pat p,
    onGrid pat /\ NoDup pat /\ isDot p /\ ~ In p pat /\
    (exists l, getAllowedNextDots pat = Ok l /\ In p l) /\
    ~ documentedRule pat p.
Proof.
  exists [0], 5.
  split. { split; [discriminate | repeat constructor; unfold isDot; lia]. }
  split. { repeat constructor. simpl. tauto. }
  split. { unfold isDot. lia. }
  split. { simpl. lia. }
  split. { exists [1; 3; 4; 5; 7]. split; [reflexivity | simpl; tauto]. }
  intros [H | [H _]]; vm_compute in H; discriminate.
Qed.

(** C1 (amended): for a non-empty duplicate-free pattern and an unvisited
    dot [p], [p] is returned by [getAllowedNextDots] if and only if [p] is
    adjacent to the last dot, or [p] is a far end of a line from the last
    dot whose middle is visited, or [p] is neither adjacent to the last dot
    nor a far end of a line from it. *)
Theorem allowed_iff_rule_or_offLine (pat : list Z) (p : Z) :
  onGrid pat -> NoDup pat -> isDot p -> ~ In p pat ->
  exists l,
    getAllowedNextDots pat = Ok l /\
    (In p l <-> documentedRule pat p \/ offLine (lastDot pat) p).
Proof.
  intros Hpat _ Hp Hnew.
  assert (Hl := onGrid_lastDot pat Hpat).
  exists (filter (allowedb pat) allDots). split.
  - apply getAllowedNextDots_spec; [apply Hpat | assumption].
  - rewrite in_allowed. unfold allowedb, documentedRule, offLine.
    apply mem_not_In in Hnew. rewrite Hnew.
    rewrite (middleVisited_sym pat p).
    pose proof (adjacent_not_endLinear (lastDot pat) p Hl Hp) as Hdisj.
    destruct (adjacentb (lastDot pat) p), (endLinearb (lastDot pat) p),
      (middleVisited pat (lastDot pat) p); cbn;
      try (specialize (Hdisj eq_refl); discriminate Hdisj);
      intuition congruence.
Qed.

Lemma allowed_iff_rule_or_offLine_witness :
  exists l,
    getAllowedNextDots [0; 3; 6] = Ok l /\
    (In 5 l <-> documentedRule [0; 3; 6] 5 \/ offLine (lastDot [0; 3; 6]) 5).
Proof.
  apply (allowed_iff_rule_or_offLine [0; 3; 6] 5).
  - split; [discriminate | repeat constructor; unfold isDot; lia].
  - repeat constructor; simpl; intuition lia.
  - unfold isDot; lia.
  - simpl; intuition lia.
Defined.

(** C5: for a non-empty duplicate-free pattern with final dot [last], the
    dots returned by [getAllowedNextDots] are the unvisited dots minus the
    dots [d] of [getEndLinear(last)] whose middle [getMiddle(last, d)] is
    unvisited; in particular an unvisited dot that is neither in
    [getAdjacent(last)] nor in [getEndLinear(last)] is returned. *)
Theorem allowed_is_unvisited_minus_blocked (pat : list Z) :
  onGrid pat -> NoDup pat ->
  exists l,
    getAllowedNextDots pat = Ok l /\
    (forall d,
        In d l <->
        isDot d /\ ~ In d pat /\
        ~ (endLinearb (lastDot pat) d = true /\
           middleVisited pat (lastDot pat) d = false)) /\
    (forall d,
        isDot d -> ~ In d pat -> offLine (lastDot pat) d -> In d l).
Proof.
  intros Hpat _.
  assert (Hl := onGrid_lastDot pat Hpat).
  exists (filter (allowedb pat) allDots). split; [| split].
  - apply getAllowedNextDots_spec; [apply Hpat | assumption].
  - intros d. rewrite in_allowed, <- mem_not_In. unfold allowedb.
    destruct (mem d pat), (endLinearb (lastDot pat) d),
      (middleVisited pat (lastDot pat) d); cbn; intuition congruence.
  - intros d Hd Hnew [_ Hend]. apply in_allowed. split; [assumption|].
    apply mem_not_In in Hnew. unfold allowedb. now rewrite Hnew, Hend.
Qed.

Lemma allowed_is_unvisited_minus_blocked_witness :
  exists l,
    getAllowedNextDots [0; 7] = Ok l /\
    (forall d,
        In d l <->
        isDot d /\ ~ In d [0; 7] /\
        ~ (endLinearb (lastDot [0; 7]) d = true /\
           middleVisited [0; 7] (lastDot [0; 7]) d = false)) /\
    (forall d,
        isDot d -> ~ In d [0; 7] -> offLine (lastDot [0; 7]) d -> In d l).
Proof.
  apply (allowed_is_unvisited_minus_blocked [0; 7]).
  - split; [discriminate | repeat constructor; unfold isDot; lia].
  - repeat constructor; simpl; intuition lia.
Defined.

(** C7: on a non-empty duplicate-free pattern [getAllowedNextDots] returns
    a duplicate-free list without raising, and the list is empty only when
    the pattern holds all nine dots. *)
Theorem allowed_empty_only_when_full (pat : list Z) :
  onGrid pat -> NoDup pat ->
  exists l,
    getAllowedNextDots pat = Ok l /\ NoDup l /\
    (l = [] -> forall d, isDot d -> In d pat).
Proof.
  intros Hpat _.
  assert (Hl := onGrid_lastDot pat Hpat).
  exists (filter (allowedb pat) allDots). split; [| split].
  - apply getAllowedNextDots_spec; [apply Hpat | assumption].
  - apply NoDup_filter. unfold allDots.
    repeat constructor; simpl; intuition lia.
  - intros Hnil d Hd.
    assert (Hnone : forall x, isDot x -> allowedb pat x = false).
    { intros x Hx. destruct (allowedb pat x) eqn:Hal; [| reflexivity].
      assert (Hin : In x (filter (allowedb pat) allDots))
        by now apply in_allowed.
      rewrite Hnil in Hin. contradiction. }
    apply mem_In. destruct (mem d pat) eqn:Hvis; [reflexivity|].
    assert (Hdd := Hnone d Hd). unfold allowedb in Hdd.
    rewrite Hvis in Hdd. cbn [negb andb] in Hdd.
    apply negb_false_iff, andb_true_iff in Hdd as [Hend Hmid].
    apply negb_true_iff in Hmid.
    destruct (endLinear_middle _ _ Hl Hd Hend) as [m [Hm [Hmdot Hmend]]].
    assert (Hmm := Hnone m Hmdot). unfold allowedb in Hmm.
    unfold middleVisited in Hmid. rewrite Hm in Hmid.
    rewrite Hmid, Hmend in Hmm. discriminate Hmm.
Qed.

Lemma allowed_empty_only_when_full_witness :
  exists l,
    getAllowedNextDots [0; 1; 2; 5; 4; 3; 6; 7; 8] = Ok l /\ NoDup l /\
    (l = [] -> forall d, isDot d -> In d [0; 1; 2; 5; 4; 3; 6; 7; 8]).
Proof.
  apply (allowed_empty_only_when_full [0; 1; 2; 5; 4; 3; 6; 7; 8]).
  - split; [discriminate | repeat constructor; unfold isDot; lia].
  - repeat constructor; simpl; intuition lia.
Defined.

(** C4: on the pattern [0,3,6] the rule returns exactly the dots 1, 4, 5, 7
    (in this order), so none of 0, 2, 3, 6, 8 is returned. *)
Theorem allowed_036 :
  exists l,
    getAllowedNextDots [0; 3; 6] = Ok l /\
    l = [1; 4; 5; 7] /\
    (forall d, In d l <-> In d [1; 4; 5; 7]) /\
    Forall (fun d => ~ In d l) [0; 2; 3; 6; 8].
Proof.
  exists [1; 4; 5; 7]. repeat split; try tauto.
  repeat constructor; simpl; intuition lia.
Qed.

(** ** The enumerator: statements *)

Lemma levelFrom_snoc (s : Z) (n : nat) (q : list Z) (d : Z) :
  In q (levelFrom s n) -> isDot d -> allowedb q d = true ->
  In (q ++ [d]) (levelFrom s (S n)).
Proof.
  intros Hq Hd Hal. cbn [levelFrom]. apply in_flat_map.
  exists q. split; [assumption|]. apply in_extend. now exists d.
Qed.

(** What an allowed dot says about the move from the last dot to it. *)
Lemma allowedb_move (q : list Z) (d : Z) :
  allowedb q d = true -> ~ In d q /\ actualMove q (lastDot q) d.
Proof.
  unfold allowedb. intros H. apply andb_true_iff in H as [Hnew Hok].
  apply negb_true_iff in Hnew. split; [now apply mem_not_In|].
  apply negb_true_iff in Hok. unfold actualMove, documentedMove, offLine.
  destruct (endLinearb (lastDot q) d) eqn:Hend.
  - left. right. split; [reflexivity|].
    cbn [andb] in Hok. apply negb_false_iff in Hok.
    unfold middleVisited in Hok. unfold midpointIn.
    destruct (getMiddle (lastDot q) d) as [[m |] | e]; try discriminate.
    exists m. split; [reflexivity | now apply mem_In].
  - destruct (adjacentb (lastDot q) d); [left; now left | now right].
Qed.

Lemma everyMove_snoc (rule : list Z -> Z -> Z -> Prop) (q : list Z) (d : Z) :
  everyMove rule q -> rule q (lastDot q) d -> everyMove rule (q ++ [d]).
Proof.
  intros Hq Hd pre a b post Heq.
  destruct post as [| x post'] using rev_ind.
  - change (pre ++ [a; b]) with (pre ++ [a] ++ [b]) in Heq.
    rewrite app_assoc in Heq. apply app_inj_tail in Heq as [-> ->].
    now rewrite lastDot_snoc in Hd.
  - clear IHpost'.
    change (pre ++ a :: b :: post' ++ [x])
      with (pre ++ (a :: b :: post') ++ [x]) in Heq.
    rewrite app_assoc in Heq. apply app_inj_tail in Heq as [-> _].
    now apply (Hq pre a b post').
Qed.

Lemma levelFrom_sound (s : Z) (n : nat) (p : list Z) :
  In p (levelFrom s n) -> NoDup p /\ everyMove actualMove p.
Proof.
  revert p. induction n as [| n IH]; intros p Hp.
  - destruct Hp as [<- | []]. split.
    + repeat constructor. simpl. tauto.
    + intros pre a b post Heq. apply (f_equal (@length Z)) in Heq.
      rewrite length_app in Heq. simpl in Heq. lia.
  - cbn [levelFrom] in Hp. apply in_flat_map in Hp as [q [Hq Hp]].
    apply in_extend in Hp as [d [-> [_ Hal]]].
    destruct (IH q Hq) as [Hnd Hmoves].
    apply allowedb_move in Hal as [Hnew Hmove]. split.
    + apply NoDup_app; [assumption | repeat constructor; simpl; tauto |].
      intros x Hx [<- | []]. contradiction.
    + now apply everyMove_snoc.
Qed.

(** C2, as the design document states it, fails: the four-dot pattern
    [0,5,2,1] is emitted, and its first move 0 -> 5 is neither to an
    adjacent dot nor along a line. *)
Lemma emitted_0521_breaks_documented_move :
  exists l p,
    findAllCombinations 9 = Ok l /\ In (Pattern p) l /\
    ~ (NoDup p /\ everyMove documentedMove p).
Proof.
  exists (map Pattern (allCombinations 9)), [0; 5; 2; 1].
  split; [apply findAllCombinations_spec | split].
  - apply in_map. unfold allCombinations. apply in_flat_map.
    exists 4. split; [vm_compute; tauto|].
    apply in_patternsOfSize. exists 0. split; [unfold isDot; lia|].
    change (Z.to_nat (4 - 1)) with 3%nat.
    apply (levelFrom_snoc 0 2 [0; 5; 2] 1);
      [| unfold isDot; lia | reflexivity].
    apply (levelFrom_snoc 0 1 [0; 5] 2);
      [| unfold isDot; lia | reflexivity].
    apply (levelFrom_snoc 0 0 [0] 5);
      [| unfold isDot; lia | reflexivity].
    now left.
  - intros [_ H]. specialize (H [] 0 5 [2; 1] eq_refl).
    destruct H as [H | [H _]]; vm_compute in H; discriminate.
Qed.

(** C2 (amended): [findAllCombinations] returns a list of patterns, each a
    sequence of pairwise-distinct dots in which, for every consecutive pair
    (a, b), either b is in adjacent(a), or b is in farCollinear(a) and the
    midpoint of a and b occurs before b, or b is neither in adjacent(a) nor
    in farCollinear(a). *)
Theorem emitted_patterns_moves (maxLength : Z) :
  exists l,
    findAllCombinations maxLength = Ok l /\
    Forall (fun e => exists p, e = Pattern p /\ NoDup p /\
                               everyMove actualMove p) l.
Proof.
  exists (map Pattern (allCombinations maxLength)).
  split; [apply findAllCombinations_spec|].
  apply Forall_forall. intros e He.
  apply in_map_iff in He as [p [<- Hp]]. exists p. split; [reflexivity|].
  unfold allCombinations in Hp. apply in_flat_map in Hp as [L [_ Hp]].
  apply in_patternsOfSize in Hp as [s [_ Hp]].
  now apply (levelFrom_sound s (Z.to_nat (L - 1))).
Qed.

(** C3: the production run, [findAllCombinations(9)] after the self-test,
    returns exactly 389112 entries. *)
Theorem total_count :
  exists l,
    findAllCombinations 9 = Ok l /\ main = Ok l /\
    Z.of_nat (length l) = 389112.
Proof.
  exists (map Pattern (allCombinations 9)).
  split; [apply findAllCombinations_spec | split].
  - unfold main. replace test with (Ok tt) by (vm_compute; reflexivity).
    apply findAllCombinations_spec.
  - rewrite length_map. vm_compute. reflexivity.
Qed.

(** C9: for each of the eight symmetries of the grid and every target
    length, relabelling every entry of [findAllPatterns(L)] gives the same
    set of entries; in particular a relabelled emitted pattern is emitted
    again. *)
Theorem findAllPatterns_symmetric (g : symmetry) (L : Z) :
  exists l,
    findAllPatterns L = Ok l /\
    (forall e, In e (map (relabel g) l) <-> In e l) /\
    (forall p, In (Pattern p) l -> In (Pattern (map (act g) p)) l).
Proof.
  destruct (Z_le_gt_dec L 1) as [Hshort | Hlong].
  - exists (map Dot allDots).
    split; [now apply findAllPatterns_short | split].
    + intros e. destruct g; vm_compute; tauto.
    + intros p Hp. apply in_map_iff in Hp as [d [Hd _]]. discriminate Hd.
  - set (n := Z.to_nat (L - 1)).
    assert (Hgrid : forall p, In p (patternsOfSize n) -> Forall isDot p).
    { intros p Hp. apply in_patternsOfSize in Hp as [s [Hs Hp]].
      apply (levelFrom_onGrid s n p Hs Hp). }
    exists (map Pattern (patternsOfSize n)).
    split; [apply findAllPatterns_spec; lia | split].
    + intros e. rewrite map_map. rewrite !in_map_iff. split.
      * intros [p [<- Hp]]. exists (map (act g) p).
        split; [reflexivity | now apply patternsOfSize_act].
      * intros [p [<- Hp]]. exists (map (act (inverse g)) p). split.
        -- cbn [relabel]. f_equal. apply map_act_inverse. now apply Hgrid.
        -- now apply patternsOfSize_act.
    + intros p Hp. apply in_map_iff in Hp as [q [Hq Hp]].
      injection Hq as ->. apply in_map. now apply patternsOfSize_act.
Qed.

(** ** The topology tables: statements *)

(** C6: the table of [getAdjacent] lists the king-move neighbours of every
    dot but the centre; corners have 3 and edge midpoints 5.  The entry of
    the centre 4 has eight items, but dot 3 is listed twice and dot 2 is
    missing, although 4 is listed as adjacent to 2. *)
Theorem getAdjacent_centre_omits_2 :
  getAdjacent 4 = Ok (Some [1; 3; 5; 7; 0; 3; 6; 8]) /\
  adjacentb 4 2 = false /\ In 2 (kingNeighbours 4) /\
  adjacentb 2 4 = true /\
  Z.of_nat (length (kingNeighbours 4)) = 8 /\
  Forall (fun p => exists l, getAdjacent p = Ok (Some l) /\ NoDup l /\
                             forall d, In d l <-> In d (kingNeighbours p))
         [0; 1; 2; 3; 5; 6; 7; 8] /\
  Forall (fun p => exists l, getAdjacent p = Ok (Some l) /\ length l = 3%nat)
         [0; 2; 6; 8] /\
  Forall (fun p => exists l, getAdjacent p = Ok (Some l) /\ length l = 5%nat)
         [1; 3; 5; 7].
Proof.
  split; [reflexivity|]. split; [reflexivity|].
  split; [vm_compute; tauto|]. split; [reflexivity|].
  split; [reflexivity|]. split; [| split].
  - repeat (apply Forall_cons || apply Forall_nil);
      (eexists; split; [reflexivity | split;
         [repeat constructor; simpl; intuition lia
         | intros d; vm_compute; tauto]]).
  - repeat (apply Forall_cons || apply Forall_nil);
      (eexists; split; reflexivity).
  - repeat (apply Forall_cons || apply Forall_nil);
      (eexists; split; reflexivity).
Qed.

(** C8, as the design document states it, fails: on the pair (0, 1), which
    is no pair of far ends of a line, [getMiddle] raises nothing and returns
    [None]. *)
Lemma getMiddle_01_returns_None :
  exists a b,
    isDot a /\ isDot b /\ endLinearb a b = false /\
    getMiddle a b = Ok None /\
    (forall e, getMiddle a b <> Raise e).
Proof.
  exists 0, 1. unfold isDot. repeat split; try lia; discriminate.
Qed.

(** C8 (amended): [getMiddle] never raises.  On the far ends of a line of
    three it returns the dot between them, the same for both orders of its
    arguments; on every other pair it returns [None]. *)
Theorem getMiddle_total (a b : Z) :
  getMiddle a b = getMiddle b a /\
  (endLinearb a b = true -> getMiddle a b = Ok (Some ((a + b) / 2))) /\
  (endLinearb a b = false -> getMiddle a b = Ok None).
Proof.
  split; [apply getMiddle_sym|].
  destruct (Z_lt_dec a 0) as [Ha | Ha];
    [| destruct (Z_lt_dec 8 a) as [Ha' | Ha']].
  - unfold endLinearb, getEndLinear, getMiddle.
    repeat match goal with
           | |- context [?x =? ?y] => destruct (Z.eqb_spec x y); try lia
           end; cbn; split; congruence.
  - unfold endLinearb, getEndLinear, getMiddle.
    repeat match goal with
           | |- context [?x =? ?y] => destruct (Z.eqb_spec x y); try lia
           end; cbn; split; congruence.
  - assert (Hdot : isDot a) by (unfold isDot; lia).
    each_dot a Hdot; unfold endLinearb, getMiddle; cbn;
      repeat match goal with
             | |- context [?x =? ?y] =>
                 destruct (Z.eqb_spec x y); try subst b; cbn; try lia
             end; split; congruence.
Qed.

(** ** The enumerator at target length one *)

(** C10: [recursivelyEvaluate(start, 1)] returns the start pattern itself,
    the list that holds the dot [start], and not a list that holds the
    one-dot pattern. *)
Theorem recursivelyEvaluate_1_is_flat (start : Z) :
  recursivelyEvaluate start 1 = Ok [Dot start] /\
  [Dot start] <> [Pattern [start]].
Proof.
  split; [apply recursivelyEvaluate_short; lia | discriminate].
Qed.

(** ** The self-test *)

Lemma levelFrom_length (s : Z) (n : nat) (p : list Z) :
  In p (levelFrom s n) -> length p = S n.
Proof.
  revert p. induction n as [| n IH]; intros p Hp.
  - now destruct Hp as [<- | []].
  - cbn [levelFrom] in Hp. apply in_flat_map in Hp as [q [Hq Hp]].
    apply in_extend in Hp as [d [-> _]].
    rewrite length_app, (IH q Hq). simpl. lia.
Qed.

(** The self-test of the script passes: no assertion fails. *)
Theorem self_test_passes : test = Ok tt.
Proof. vm_compute. reflexivity. Qed.


(** ** The tables off the grid and against the geometry *)

Lemma isDot_dec (d : Z) : {isDot d} + {~ isDot d}.
Proof.
  unfold isDot. destruct (Z_le_dec 0 d), (Z_lt_dec d 9); (left; lia) || (right; lia).
Qed.

Lemma getAdjacent_off_grid (d : Z) : ~ isDot d -> getAdjacent d = Ok None.
Proof.
  unfold isDot, getAdjacent. intros H.
  repeat match goal with
         | |- context [?x =? ?y] => destruct (Z.eqb_spec x y); [lia|]
         end; reflexivity.
Qed.

Lemma getLinear_off_grid (d : Z) : ~ isDot d -> getLinear d = Ok None.
Proof.
  unfold isDot, getLinear. intros H.
  repeat match goal with
         | |- context [?x =? ?y] => destruct (Z.eqb_spec x y); [lia|]
         end; reflexivity.
Qed.

Lemma getEndLinear_off_grid (d : Z) : ~ isDot d -> getEndLinear d = Ok None.
Proof.
  unfold isDot, getEndLinear. intros H.
  repeat match goal with
         | |- context [?x =? ?y] => destruct (Z.eqb_spec x y); [lia|]
         end; reflexivity.
Qed.

(** The three tables have an entry for the nine dots of the grid and for
    nothing else: any other integer falls through every test, and the call
    returns [None] without raising. *)
Theorem tables_defined_on_grid_only (d : Z) :
  (isDot d ->
   exists a l e, getAdjacent d = Ok (Some a) /\ getLinear d = Ok (Some l) /\
                 getEndLinear d = Ok (Some e)) /\
  (~ isDot d ->
   getAdjacent d = Ok None /\ getLinear d = Ok None /\
   getEndLinear d = Ok None).
Proof.
  split.
  - intros H. each_dot d H; do 3 eexists; repeat split; reflexivity.
  - intros H. split; [| split].
    + now apply getAdjacent_off_grid.
    + now apply getLinear_off_grid.
    + now apply getEndLinear_off_grid.
Qed.

Lemma endLinearb_dots (a b : Z) :
  endLinearb a b = true -> isDot a /\ isDot b.
Proof.
  destruct (isDot_dec a) as [Ha | Ha].
  - intros H. split; [assumption|]. revert H.
    each_dot a Ha; unfold endLinearb; cbn [getEndLinear Z.eqb];
      intros H; apply mem_In in H; unfold isDot; simpl in H; lia.
  - unfold endLinearb. rewrite getEndLinear_off_grid by assumption.
    discriminate.
Qed.

Lemma adjacentb_dots (a b : Z) :
  adjacentb a b = true -> isDot a /\ isDot b.
Proof.
  destruct (isDot_dec a) as [Ha | Ha].
  - intros H. split; [assumption|]. revert H.
    each_dot a Ha; unfold adjacentb; cbn [getAdjacent Z.eqb];
      intros H; apply mem_In in H; unfold isDot; simpl in H; lia.
  - unfold adjacentb. rewrite getAdjacent_off_grid by assumption.
    discriminate.
Qed.

(** The table of [getEndLinear] is the geometry of the grid: for every dot
    it lists, without repeats, the dots two steps away along a row, a column
    or a diagonal.  The relation is symmetric, and no pair of integers is
    both adjacent and far-collinear. *)
Theorem getEndLinear_geometric :
  Forall (fun p => exists l, getEndLinear p = Ok (Some l) /\ NoDup l /\
                             forall d, In d l <-> In d (farEnds p)) allDots /\
  (forall a b, endLinearb a b = endLinearb b a) /\
  (forall a b, adjacentb a b && endLinearb a b = false).
Proof.
  split; [| split].
  - repeat (apply Forall_cons || apply Forall_nil);
      (eexists; split; [reflexivity | split;
         [repeat constructor; simpl; intuition lia
         | intros d; vm_compute; tauto]]).
  - intros a b.
    destruct (endLinearb a b) eqn:Hab, (endLinearb b a) eqn:Hba;
      try reflexivity; exfalso.
    + destruct (endLinearb_dots a b Hab) as [Ha Hb].
      revert Hab Hba. each_dot a Ha; each_dot b Hb; vm_compute; congruence.
    + destruct (endLinearb_dots b a Hba) as [Hb Ha].
      revert Hab Hba. each_dot a Ha; each_dot b Hb; vm_compute; congruence.
  - intros a b. destruct (adjacentb a b) eqn:Hadj; [| reflexivity].
    destruct (adjacentb_dots a b Hadj) as [Ha Hb]. cbn.
    now apply adjacent_not_endLinear.
Qed.

(** [getLinear] lists, for every dot, all the far ends of [getEndLinear]
    and otherwise only dots of [getAdjacent].  It is the union of the two,
    as the header of the script says, at the four corners only: at the four
    edge midpoints and at the centre it leaves adjacent dots out. *)
Theorem getLinear_between :
  Forall (fun p => exists a l e,
              getAdjacent p = Ok (Some a) /\ getLinear p = Ok (Some l) /\
              getEndLinear p = Ok (Some e) /\
              incl e l /\ incl l (a ++ e)) allDots /\
  Forall (fun p => exists a l e,
              getAdjacent p = Ok (Some a) /\ getLinear p = Ok (Some l) /\
              getEndLinear p = Ok (Some e) /\ incl (a ++ e) l)
         [0; 2; 6; 8] /\
  Forall (fun p => exists a l,
              getAdjacent p = Ok (Some a) /\ getLinear p = Ok (Some l) /\
              exists d, In d a /\ ~ In d l)
         [1; 3; 4; 5; 7].
Proof.
  split; [| split].
  - repeat (apply Forall_cons || apply Forall_nil);
      (do 3 eexists; repeat (split; [reflexivity|]);
       split; intros d; simpl; tauto).
  - repeat (apply Forall_cons || apply Forall_nil);
      (do 3 eexists; repeat (split; [reflexivity|]);
       intros d; simpl; tauto).
  - repeat (apply Forall_cons || apply Forall_nil);
      (do 2 eexists; repeat (split; [reflexivity|]);
       eexists; split; [left; reflexivity | simpl; intuition lia]).
Qed.


(** ** The rule outside its intended inputs *)

(** [getLast] returns the final element of a non-empty list and raises
    [IndexError] on the empty one. *)
Theorem getLast_final (q : list Z) (d : Z) :
  getLast [] = Raise IndexError /\ getLast (q ++ [d]) = Ok d.
Proof.
  split; [reflexivity|].
  rewrite getLast_lastDot by (intros H; now apply app_eq_nil in H as [_ H]).
  now rewrite lastDot_snoc.
Qed.

Lemma allowedStep_off_grid (pat c : list Z) (d : Z) :
  pat <> [] -> ~ isDot (lastDot pat) ->
  allowedStep pat c d
  = if mem d pat then list_remove d c else Raise TypeError.
Proof.
  intros Hne Hoff. unfold allowedStep.
  rewrite (getLast_lastDot pat Hne). unfold isAlreadyVisited. cbn [bind].
  destruct (mem d pat); [reflexivity|].
  now rewrite getAdjacent_off_grid.
Qed.

Lemma for_each_off_grid (pat : list Z) :
  pat <> [] -> ~ isDot (lastDot pat) ->
  forall ds c,
    NoDup ds -> incl ds c -> NoDup c ->
    for_each (allowedStep pat) ds c
    = if forallb (fun d => mem d pat) ds
      then Ok (filter (fun x => negb (mem x ds)) c)
      else Raise TypeError.
Proof.
  intros Hne Hoff. induction ds as [| d ds IH]; intros c Hnd Hincl Hc.
  - cbn. apply (f_equal Ok). symmetry. apply forallb_filter_id.
    apply forallb_forall. reflexivity.
  - inversion Hnd as [| ? ? Hd Hnd']; subst.
    cbn [for_each forallb]. rewrite allowedStep_off_grid by assumption.
    destruct (mem d pat); cbn [bind andb]; [| reflexivity].
    rewrite list_remove_filter by (assumption || (apply Hincl; now left)).
    cbn [bind]. rewrite IH.
    + destruct (forallb (fun x => mem x pat) ds); [| reflexivity].
      apply (f_equal Ok). rewrite filter_twice. apply filter_ext.
      intros x. cbn [mem existsb]. fold (mem x ds).
      now destruct (x =? d), (mem x ds).
    + assumption.
    + intros x Hx. apply filter_In. split; [apply Hincl; now right|].
      apply negb_true_iff, Z.eqb_neq. intros ->. contradiction.
    + now apply NoDup_filter.
Qed.

Lemma NoDup_allDots : NoDup allDots.
Proof. unfold allDots. repeat constructor; simpl; intuition lia. Qed.

(** On a pattern that does not end in a dot of the grid the rule fails:
    on the empty pattern with [IndexError] (there is no last dot), and on a
    pattern whose last element is off the grid with [TypeError] at the
    first unvisited dot, because [getAdjacent] returned [None].  Only when
    all nine dots are visited does the loop never reach the tables, and the
    result is the empty list. *)
Theorem getAllowedNextDots_off_grid (pat : list Z) :
  pat = [] \/ ~ isDot (lastDot pat) ->
  getAllowedNextDots pat
  = match pat with
    | [] => Raise IndexError
    | _ :: _ => if forallb (fun d => mem d pat) allDots
                then Ok [] else Raise TypeError
    end.
Proof.
  intros [-> | Hoff]; [reflexivity|].
  destruct pat as [| x rest] eqn:Hpat.
  - exfalso. apply Hoff. unfold isDot, lastDot. simpl. lia.
  - rewrite <- Hpat in *. unfold getAllowedNextDots.
    rewrite for_each_off_grid;
      try (apply NoDup_allDots || apply incl_refl || assumption).
    + destruct (forallb (fun d => mem d pat) allDots); [| reflexivity].
      apply (f_equal Ok). reflexivity.
    + subst pat. discriminate.
Qed.

Lemma getAllowedNextDots_off_grid_witness :
  getAllowedNextDots [0; 9]
  = (if forallb (fun d => mem d [0; 9]) allDots then Ok [] else Raise TypeError).
Proof.
  apply (getAllowedNextDots_off_grid [0; 9]).
  right. unfold isDot, lastDot. simpl. lia.
Defined.

Lemma StronglySorted_filter {A : Type} (R : A -> A -> Prop) (f : A -> bool)
  (l : list A) :
  StronglySorted R l -> StronglySorted R (filter f l).
Proof.
  induction 1 as [| x l Hl IH Hx]; simpl; [constructor|].
  destruct (f x); [| assumption]. constructor; [assumption|].
  apply Forall_forall. intros y Hy. apply filter_In in Hy as [Hy _].
  now apply (proj1 (Forall_forall _ _) Hx).
Qed.

Lemma allowedb_by_last_and_set (pat pat' : list Z) (d : Z) :
  lastDot pat' = lastDot pat -> (forall x, In x pat' <-> In x pat) ->
  allowedb pat' d = allowedb pat d.
Proof.
  intros Hlast Hset.
  assert (Hmem : forall x, mem x pat' = mem x pat).
  { intros x. destruct (mem x pat) eqn:H.
    - apply mem_In. apply Hset. now apply mem_In.
    - apply mem_not_In. rewrite Hset. now apply mem_not_In. }
  unfold allowedb, middleVisited. rewrite Hlast, Hmem.
  destruct (getMiddle (lastDot pat) d) as [[m |] | e]; try reflexivity.
  now rewrite Hmem.
Qed.

(** The result of the rule depends on the pattern only through its last
    dot and the set of its elements: repeats, the order of the earlier
    elements and elements off the grid make no difference, and nothing is
    raised as long as the last element is a dot of the grid.  The allowed
    dots come in increasing order, whatever the order of the tables. *)
Theorem getAllowedNextDots_by_last_and_set (pat pat' : list Z) :
  pat <> [] -> isDot (lastDot pat) ->
  pat' <> [] -> lastDot pat' = lastDot pat ->
  (forall x, In x pat' <-> In x pat) ->
  exists l,
    getAllowedNextDots pat = Ok l /\ getAllowedNextDots pat' = Ok l /\
    StronglySorted Z.lt l.
Proof.
  intros Hne Hlast Hne' Heq Hset.
  exists (filter (allowedb pat) allDots). split; [| split].
  - now apply getAllowedNextDots_spec.
  - rewrite getAllowedNextDots_spec by (assumption || now rewrite Heq).
    apply (f_equal Ok). apply filter_ext. intros d.
    now apply allowedb_by_last_and_set.
  - apply StronglySorted_filter. unfold allDots.
    repeat constructor; lia.
Qed.

Lemma getAllowedNextDots_by_last_and_set_witness :
  exists l,
    getAllowedNextDots [0; 3; 6] = Ok l /\
    getAllowedNextDots [3; 0; 3; 0; 6] = Ok l /\
    StronglySorted Z.lt l.
Proof.
  apply (getAllowedNextDots_by_last_and_set [0; 3; 6] [3; 0; 3; 0; 6]).
  - discriminate.
  - unfold isDot, lastDot. simpl. lia.
  - discriminate.
  - reflexivity.
  - intros x. simpl. tauto.
Defined.

Lemma extend_NoDup (pat : list Z) : NoDup (extend pat).
Proof.
  unfold extend. generalize (NoDup_filter (allowedb pat) NoDup_allDots).
  generalize (filter (allowedb pat) allDots) as l.
  induction l as [| d l IH]; intros Hl; cbn [map]; [constructor|].
  inversion Hl as [| ? ? Hd Hl']; subst. constructor; [| now apply IH].
  rewrite in_map_iff. intros [y [Hy Hin]].
  apply app_inv_head in Hy. injection Hy as ->. contradiction.
Qed.

(** [getNextOptions] returns one option per allowed dot, in the order of
    [getAllowedNextDots]: the pattern with that dot appended.  The options
    are pairwise distinct. *)
Theorem getNextOptions_extends (pat : list Z) :
  pat <> [] -> isDot (lastDot pat) ->
  exists l opts,
    getAllowedNextDots pat = Ok l /\ getNextOptions pat = Ok opts /\
    opts = map (fun d => pat ++ [d]) l /\ NoDup opts.
Proof.
  intros Hne Hlast.
  exists (filter (allowedb pat) allDots), (extend pat).
  split; [now apply getAllowedNextDots_spec | split; [| split]].
  - unfold getNextOptions. rewrite getAllowedNextDots_spec by assumption.
    cbn [bind]. cbv zeta.
    now rewrite (for_each_append (fun i => pat ++ [i])).
  - reflexivity.
  - apply extend_NoDup.
Qed.


Lemma getNextOptions_extends_witness :
  exists l opts,
    getAllowedNextDots [0; 7] = Ok l /\ getNextOptions [0; 7] = Ok opts /\
    opts = map (fun d => [0; 7] ++ [d]) l /\ NoDup opts.
Proof.
  apply (getNextOptions_extends [0; 7]).
  - discriminate.
  - unfold isDot, lastDot. simpl. lia.
Defined.

(** ** The enumerator: exactly the valid patterns, each once *)

Lemma NoDup_flat_map {A B : Type} (f : A -> list B) (l : list A) :
  NoDup l ->
  (forall x, In x l -> NoDup (f x)) ->
  (forall x y z, In x l -> In y l -> In z (f x) -> In z (f y) -> x = y) ->
  NoDup (flat_map f l).
Proof.
  induction 1 as [| x l Hx Hl IH]; intros Hf Hdisj; cbn [flat_map].
  - constructor.
  - apply NoDup_app.
    + apply Hf. now left.
    + apply IH.
      * intros y Hy. apply Hf. now right.
      * intros y y' z Hy Hy'. apply Hdisj; now right.
    + intros z Hz Hz'. apply in_flat_map in Hz' as [y [Hy Hz']].
      assert (x = y) by (apply (Hdisj x y z); auto; [now left | now right]).
      subst. contradiction.
Qed.

Lemma levelFrom_NoDup (s : Z) (n : nat) : NoDup (levelFrom s n).
Proof.
  induction n as [| n IH]; cbn [levelFrom].
  - repeat constructor. simpl. tauto.
  - apply NoDup_flat_map; [assumption | intros; apply extend_NoDup |].
    intros q q' p _ _ Hp Hp'.
    apply in_extend in Hp as [d [-> _]]. apply in_extend in Hp' as [d' [Heq _]].
    now apply app_inj_tail in Heq as [-> _].
Qed.

Lemma levelFrom_head (s : Z) (n : nat) (p : list Z) :
  In p (levelFrom s n) -> hd_error p = Some s.
Proof.
  revert p. induction n as [| n IH]; intros p Hp.
  - now destruct Hp as [<- | []].
  - cbn [levelFrom] in Hp. apply in_flat_map in Hp as [q [Hq Hp]].
    apply in_extend in Hp as [d [-> _]]. specialize (IH q Hq).
    destruct q; [discriminate | exact IH].
Qed.

Lemma patternsOfSize_NoDup (n : nat) : NoDup (patternsOfSize n).
Proof.
  unfold patternsOfSize. apply NoDup_flat_map.
  - apply NoDup_allDots.
  - intros s _. apply levelFrom_NoDup.
  - intros s s' p _ _ Hp Hp'. apply levelFrom_head in Hp, Hp'. congruence.
Qed.

Lemma in_patternsOfSize_length (n : nat) (p : list Z) :
  In p (patternsOfSize n) -> length p = S n.
Proof.
  intros Hp. apply in_patternsOfSize in Hp as [s [_ Hp]].
  now apply levelFrom_length in Hp.
Qed.

Lemma range2_NoDup (a b : Z) : NoDup (range2 a b).
Proof.
  unfold range2. generalize (seq_NoDup (Z.to_nat (b - a)) 0).
  generalize (seq 0 (Z.to_nat (b - a))) as l.
  induction l as [| k l IH]; intros Hl; cbn [map]; [constructor|].
  inversion Hl as [| ? ? Hk Hl']; subst. constructor; [| now apply IH].
  rewrite in_map_iff. intros [j [Hj Hin]].
  assert (j = k) by lia. subst. contradiction.
Qed.

Lemma in_range2 (a b L : Z) : In L (range2 a b) <-> a <= L < b.
Proof.
  unfold range2. rewrite in_map_iff. split.
  - intros [k [<- Hk]]. apply in_seq in Hk. lia.
  - intros H. exists (Z.to_nat (L - a)). split; [lia|]. apply in_seq. lia.
Qed.

Lemma allCombinations_NoDup (maxLength : Z) : NoDup (allCombinations maxLength).
Proof.
  unfold allCombinations. apply NoDup_flat_map.
  - apply range2_NoDup.
  - intros L _. apply patternsOfSize_NoDup.
  - intros L L' p HL HL' Hp Hp'.
    apply in_patternsOfSize_length in Hp, Hp'.
    apply in_range2 in HL, HL'. lia.
Qed.

Lemma NoDup_map_Pattern (ps : list (list Z)) :
  NoDup ps -> NoDup (map Pattern ps).
Proof.
  induction 1 as [| p ps Hp _ IH]; cbn [map]; constructor; [| assumption].
  rewrite in_map_iff. intros [q [Hq Hin]]. injection Hq as ->. contradiction.
Qed.

(** A move the rule allows, read backwards. *)
Lemma move_allowedb (q : list Z) (d : Z) :
  isDot (lastDot q) -> isDot d -> ~ In d q ->
  actualMove q (lastDot q) d -> allowedb q d = true.
Proof.
  intros Hl Hd Hnew Hmove. unfold allowedb.
  apply mem_not_In in Hnew. rewrite Hnew. cbn [negb andb].
  apply negb_true_iff.
  destruct Hmove as [[Hadj | [_ [m [Hm Hin]]]] | [_ Hend]].
  - now rewrite (adjacent_not_endLinear _ _ Hl Hd Hadj).
  - unfold middleVisited. rewrite Hm.
    apply mem_In in Hin. rewrite Hin. apply andb_false_r.
  - now rewrite Hend.
Qed.

Lemma validPattern_snoc (q : list Z) (d : Z) :
  q <> [] -> validPattern (q ++ [d]) ->
  validPattern q /\ isDot d /\ allowedb q d = true.
Proof.
  intros Hne [Hdots [Hnd Hmoves]].
  apply Forall_app in Hdots as [Hq Hd]. inversion Hd as [| ? ? Hd' _]; subst.
  assert (Hnew : ~ In d q).
  { apply NoDup_remove_2 with (l' := []) in Hnd.
    now rewrite app_nil_r in Hnd. }
  assert (HndQ : NoDup q).
  { apply NoDup_remove_1 with (l' := []) in Hnd.
    now rewrite app_nil_r in Hnd. }
  split; [| split; [assumption|]].
  - split; [assumption | split; [assumption|]].
    intros pre a b post Heq. apply (Hmoves pre a b (post ++ [d])).
    rewrite Heq. rewrite <- !app_assoc. reflexivity.
  - apply move_allowedb; try assumption.
    + apply onGrid_lastDot. now split.
    + destruct (exists_last Hne) as [pre [a Hq']]. subst q.
      rewrite lastDot_snoc. apply (Hmoves pre a d []).
      now rewrite <- app_assoc.
Qed.

Lemma levelFrom_complete (s : Z) (t : list Z) :
  validPattern (s :: t) -> In (s :: t) (levelFrom s (length t)).
Proof.
  induction t as [| d t IH] using rev_ind; intros Hvalid.
  - now left.
  - change (s :: t ++ [d]) with ((s :: t) ++ [d]) in *.
    apply validPattern_snoc in Hvalid as [Hq [Hd Hal]]; [| discriminate].
    rewrite length_app, Nat.add_1_r.
    apply levelFrom_snoc; auto.
Qed.

Lemma in_levelFrom (s : Z) (n : nat) (p : list Z) :
  isDot s ->
  In p (levelFrom s n) <->
  hd_error p = Some s /\ length p = S n /\ validPattern p.
Proof.
  intros Hs. split.
  - intros Hp. split; [| split; [| split; [| split]]].
    + now apply levelFrom_head in Hp.
    + now apply levelFrom_length in Hp.
    + apply (levelFrom_onGrid s n p Hs Hp).
    + apply (levelFrom_sound s n p Hp).
    + apply (levelFrom_sound s n p Hp).
  - intros [Hhd [Hlen Hvalid]]. destruct p as [| x t]; [discriminate|].
    injection Hhd as ->. simpl in Hlen. injection Hlen as <-.
    now apply levelFrom_complete.
Qed.

(** From a dot of the grid and for a target length of two or more,
    [recursivelyEvaluate] returns exactly the valid patterns of that length
    that start at the dot, and each of them once. *)
Theorem recursivelyEvaluate_characterised (s L : Z) :
  isDot s -> 2 <= L ->
  exists l,
    recursivelyEvaluate s L = Ok l /\ NoDup l /\
    forall e,
      In e l <->
      exists p, e = Pattern p /\ hd_error p = Some s /\
                Z.of_nat (length p) = L /\ validPattern p.
Proof.
  intros Hs HL. exists (map Pattern (levelFrom s (Z.to_nat (L - 1)))).
  split; [now apply recursivelyEvaluate_spec | split].
  - apply NoDup_map_Pattern, levelFrom_NoDup.
  - intros e. rewrite in_map_iff. split.
    + intros [p [<- Hp]]. exists p. split; [reflexivity|].
      apply in_levelFrom in Hp as [Hhd [Hlen Hvalid]]; [| assumption].
      repeat split; try assumption; try apply Hvalid. lia.
    + intros [p [-> [Hhd [Hlen Hvalid]]]]. exists p. split; [reflexivity|].
      apply in_levelFrom; [assumption|]. repeat split; try apply Hvalid;
        try assumption. lia.
Qed.

Lemma recursivelyEvaluate_characterised_witness :
  exists l,
    recursivelyEvaluate 4 4 = Ok l /\ NoDup l /\
    forall e,
      In e l <->
      exists p, e = Pattern p /\ hd_error p = Some 4 /\
                Z.of_nat (length p) = 4 /\ validPattern p.
Proof.
  apply (recursivelyEvaluate_characterised 4 4); unfold isDot; lia.
Defined.

(** [findAllCombinations] never raises, and its result lists exactly the
    valid patterns of 4 to [maxLength] dots, each of them once. *)
Theorem findAllCombinations_characterised (maxLength : Z) :
  exists l,
    findAllCombinations maxLength = Ok l /\ NoDup l /\
    forall e,
      In e l <->
      exists p, e = Pattern p /\
                4 <= Z.of_nat (length p) <= maxLength /\ validPattern p.
Proof.
  exists (map Pattern (allCombinations maxLength)).
  split; [apply findAllCombinations_spec | split].
  - apply NoDup_map_Pattern, allCombinations_NoDup.
  - intros e. rewrite in_map_iff. unfold allCombinations. split.
    + intros [p [<- Hp]]. exists p. split; [reflexivity|].
      apply in_flat_map in Hp as [L [HL Hp]]. apply in_range2 in HL.
      apply in_patternsOfSize in Hp as [s [Hs Hp]].
      apply in_levelFrom in Hp as [_ [Hlen Hvalid]]; [| assumption].
      split; [lia | assumption].
    + intros [p [-> [Hlen Hvalid]]]. exists p. split; [reflexivity|].
      apply in_flat_map. exists (Z.of_nat (length p)).
      split; [apply in_range2; lia|].
      destruct p as [| s t]; [simpl in Hlen; lia|].
      apply in_patternsOfSize. exists s.
      assert (Hs : isDot s).
      { destruct Hvalid as [Hdots _]. now inversion Hdots. }
      split; [assumption|]. apply in_levelFrom; [assumption|].
      split; [reflexivity | split; [| assumption]].
      cbn [length]. lia.
Qed.


(** ** The enumerator at its edges *)

Lemma range_cons (n : Z) :
  1 <= n -> range n = 0 :: map Z.of_nat (seq 1 (Z.to_nat n - 1)).
Proof.
  intros Hn. unfold range.
  destruct (Z.to_nat n) as [| k] eqn:Hk; [lia|].
  cbn [seq map]. now rewrite Nat.sub_succ, Nat.sub_0_r.
Qed.

(** Started from an integer that is no dot of the grid, with a target
    length of two or more, [recursivelyEvaluate] raises [TypeError] in its
    first turn. *)
Theorem recursivelyEvaluate_off_grid (s L : Z) :
  ~ isDot s -> 2 <= L -> recursivelyEvaluate s L = Raise TypeError.
Proof.
  intros Hs HL. unfold recursivelyEvaluate.
  change (Z.of_nat (length [Dot s])) with 1.
  rewrite range_cons by lia. cbn [for_each]. unfold evaluateTurn at 1.
  cbn [Z.eqb dotsOf bind]. unfold getNextOptions.
  rewrite (getAllowedNextDots_off_grid [s]) by (now right).
  assert (Hunseen : mem 0 [s] = false).
  { apply mem_not_In. intros [-> | []]. apply Hs. unfold isDot. lia. }
  unfold allDots. cbn [forallb]. now rewrite Hunseen.
Qed.

Lemma recursivelyEvaluate_off_grid_witness :
  recursivelyEvaluate 9 4 = Raise TypeError.
Proof.
  apply (recursivelyEvaluate_off_grid 9 4); unfold isDot; lia.
Defined.

Lemma levelFrom_nine (s : Z) (n : nat) :
  isDot s -> (9 <= n)%nat -> levelFrom s n = [].
Proof.
  intros Hs Hn. destruct (levelFrom s n) as [| p rest] eqn:Hlev; [reflexivity|].
  exfalso. assert (Hp : In p (levelFrom s n)) by (rewrite Hlev; now left).
  pose proof (levelFrom_length s n p Hp) as Hlen.
  destruct (levelFrom_sound s n p Hp) as [Hnd _].
  destruct (levelFrom_onGrid s n p Hs Hp) as [_ Hdots].
  assert (Hincl : incl p allDots).
  { intros x Hx. apply isDot_allDots.
    now apply (proj1 (Forall_forall _ _) Hdots). }
  apply (NoDup_incl_length Hnd) in Hincl. simpl in Hincl. lia.
Qed.

Lemma patternsOfSize_nine (n : nat) : (9 <= n)%nat -> patternsOfSize n = [].
Proof.
  intros Hn. unfold patternsOfSize.
  assert (H : forall l, Forall isDot l ->
                        flat_map (fun start => levelFrom start n) l = []).
  { induction 1 as [| s l Hs _ IH]; [reflexivity|]. cbn [flat_map].
    now rewrite levelFrom_nine, IH. }
  apply H. apply Forall_forall. intros x. apply isDot_allDots.
Qed.

Lemma range2_split (a b c : Z) :
  a <= b <= c -> range2 a c = range2 a b ++ range2 b c.
Proof.
  intros H. unfold range2.
  replace (Z.to_nat (c - a)) with (Z.to_nat (b - a) + Z.to_nat (c - b))%nat
    by lia.
  rewrite seq_app, map_app. f_equal.
  generalize (Z.to_nat (c - b)) as n. generalize 0%nat as k.
  intros k n. revert k. induction n as [| n IH]; intros k; [reflexivity|].
  cbn [seq map]. f_equal; [lia|]. apply (IH (S k)).
Qed.

(** No pattern has more than nine dots: for a target length of ten or more
    the result is empty, so [findAllCombinations] returns for every
    [maxLength] from nine on the list it returns for nine.  Below four the
    loop over the lengths does not run and the list is empty. *)
Theorem nothing_beyond_nine (s L M K : Z) :
  isDot s -> 10 <= L -> 9 <= M -> K < 4 ->
  recursivelyEvaluate s L = Ok [] /\
  findAllPatterns L = Ok [] /\
  findAllCombinations M = findAllCombinations 9 /\
  findAllCombinations K = Ok [].
Proof.
  intros Hs HL HM HK. split; [| split; [| split]].
  - rewrite recursivelyEvaluate_spec by (assumption || lia).
    now rewrite levelFrom_nine by (assumption || lia).
  - rewrite findAllPatterns_spec by lia.
    now rewrite patternsOfSize_nine by lia.
  - rewrite !findAllCombinations_spec. apply (f_equal Ok), f_equal.
    unfold allCombinations. rewrite (range2_split 4 (9 + 1) (M + 1)) by lia.
    rewrite flat_map_app.
    assert (Hrest : forall l, Forall (fun x => 10 <= x) l ->
              flat_map (fun x => patternsOfSize (Z.to_nat (x - 1))) l = []).
    { induction 1 as [| x l Hx _ IH]; [reflexivity|]. cbn [flat_map].
      now rewrite patternsOfSize_nine, IH by lia. }
    rewrite (Hrest (range2 (9 + 1) (M + 1))); [apply app_nil_r|].
    apply Forall_forall. intros x Hx. apply in_range2 in Hx. lia.
  - unfold findAllCombinations, range2.
    replace (Z.to_nat (K + 1 - 4)) with O by lia. reflexivity.
Qed.

Lemma nothing_beyond_nine_witness :
  recursivelyEvaluate 0 12 = Ok [] /\
  findAllPatterns 12 = Ok [] /\
  findAllCombinations 11 = findAllCombinations 9 /\
  findAllCombinations 3 = Ok [].
Proof.
  apply (nothing_beyond_nine 0 12 11 3); unfold isDot; lia.
Defined.

(** The sizes of the six levels, evaluated once. *)
Lemma level_sizes :
  Z.of_nat (length (patternsOfSize 3)) = 1624 /\
  Z.of_nat (length (patternsOfSize 4)) = 7152 /\
  Z.of_nat (length (patternsOfSize 5)) = 26016 /\
  Z.of_nat (length (patternsOfSize 6)) = 72912 /\
  Z.of_nat (length (patternsOfSize 7)) = 140704 /\
  Z.of_nat (length (patternsOfSize 8)) = 140704.
Proof.
  split; [vm_compute; reflexivity|]. split; [vm_compute; reflexivity|].
  split; [vm_compute; reflexivity|]. split; [vm_compute; reflexivity|].
  split; vm_compute; reflexivity.
Qed.

Lemma findAllPatterns_size (L : Z) (n : nat) (k : Z) :
  2 <= L -> n = Z.to_nat (L - 1) ->
  Z.of_nat (length (patternsOfSize n)) = k ->
  exists l, findAllPatterns L = Ok l /\ Z.of_nat (length l) = k.
Proof.
  intros HL -> Hk. exists (map Pattern (patternsOfSize (Z.to_nat (L - 1)))).
  split; [now apply findAllPatterns_spec | now rewrite length_map].
Qed.

(** [findAllPatterns] finds 1624 patterns of four dots, 7152 of five,
    26016 of six, 72912 of seven, and 140704 each of eight and of nine. *)
Theorem counts_per_length :
  Forall2 (fun L n => exists l, findAllPatterns L = Ok l /\
                                Z.of_nat (length l) = n)
          [4; 5; 6; 7; 8; 9]
          [1624; 7152; 26016; 72912; 140704; 140704].
Proof.
  destruct level_sizes as (H4 & H5 & H6 & H7 & H8 & H9).
  apply Forall2_cons;
    [apply (findAllPatterns_size 4 3); [lia | reflexivity | exact H4] |].
  apply Forall2_cons;
    [apply (findAllPatterns_size 5 4); [lia | reflexivity | exact H5] |].
  apply Forall2_cons;
    [apply (findAllPatterns_size 6 5); [lia | reflexivity | exact H6] |].
  apply Forall2_cons;
    [apply (findAllPatterns_size 7 6); [lia | reflexivity | exact H7] |].
  apply Forall2_cons;
    [apply (findAllPatterns_size 8 7); [lia | reflexivity | exact H8] |].
  apply Forall2_cons;
    [apply (findAllPatterns_size 9 8); [lia | reflexivity | exact H9] |].
  apply Forall2_nil.
Qed.


(** ** Eight dots leave one way on *)

Lemma allowed_some (pat : list Z) (d : Z) :
  isDot (lastDot pat) -> isDot d -> ~ In d pat ->
  exists m, isDot m /\ allowedb pat m = true.
Proof.
  intros Hl Hd Hnew. destruct (allowedb pat d) eqn:Hal; [now exists d|].
  apply mem_not_In in Hnew. unfold allowedb in Hal. rewrite Hnew in Hal.
  cbn [negb andb] in Hal.
  apply negb_false_iff, andb_true_iff in Hal as [Hend Hmid].
  apply negb_true_iff in Hmid.
  destruct (endLinear_middle _ _ Hl Hd Hend) as [m [Hm [Hmdot Hmend]]].
  exists m. split; [assumption|]. unfold allowedb.
  unfold middleVisited in Hmid. rewrite Hm in Hmid.
  now rewrite Hmid, Hmend.
Qed.

Lemma two_missing (x y : Z) :
  isDot x -> isDot y -> x <> y ->
  length (filter (fun z => negb (z =? x) && negb (z =? y)) allDots) = 7%nat.
Proof.
  intros Hx Hy. each_dot x Hx; each_dot y Hy; intros Hne;
    try reflexivity; congruence.
Qed.

Lemma singleton_list (l : list Z) (d : Z) :
  NoDup l -> (forall x, In x l <-> x = d) -> l = [d].
Proof.
  intros Hnd H. destruct l as [| x [| y rest]].
  - exfalso. now apply (proj2 (H d)).
  - f_equal. apply H. now left.
  - exfalso. assert (x = d) by (apply H; now left).
    assert (y = d) by (apply H; right; now left). subst.
    inversion Hnd as [| ? ? Hx _]. apply Hx. now left.
Qed.

(** After eight distinct dots exactly one dot is allowed, the one that is
    left: every pattern of eight dots is continued to a pattern of nine in
    one way.  (Hence as many patterns of nine dots as of eight.) *)
Theorem eight_dots_one_completion (pat : list Z) :
  onGrid pat -> NoDup pat -> length pat = 8%nat ->
  exists d, getAllowedNextDots pat = Ok [d] /\ isDot d /\ ~ In d pat.
Proof.
  intros Hpat Hnd Hlen. assert (Hl := onGrid_lastDot pat Hpat).
  destruct Hpat as [Hne Hdots].
  rewrite getAllowedNextDots_spec by assumption.
  assert (Hsome : exists d, isDot d /\ ~ In d pat).
  { destruct (existsb (fun d => negb (mem d pat)) allDots) eqn:Hex.
    - apply existsb_exists in Hex as [d [Hd Hv]]. exists d.
      split; [now apply isDot_allDots|].
      apply mem_not_In. now apply negb_true_iff.
    - exfalso. assert (Hincl : incl allDots pat).
      { intros d Hd. apply mem_In.
        destruct (mem d pat) eqn:Hv; [reflexivity|].
        assert (existsb (fun d => negb (mem d pat)) allDots = true)
          by (apply existsb_exists; exists d; now rewrite Hv).
        congruence. }
      apply (NoDup_incl_length NoDup_allDots) in Hincl.
      rewrite Hlen in Hincl. simpl in Hincl. lia. }
  assert (Huniq : forall x y,
             isDot x -> isDot y -> ~ In x pat -> ~ In y pat -> x = y).
  { intros x y Hx Hy Hnx Hny. destruct (Z.eq_dec x y) as [| Hxy]; [assumption|].
    exfalso.
    assert (Hincl : incl pat (filter (fun z => negb (z =? x) && negb (z =? y))
                                     allDots)).
    { intros z Hz. apply filter_In. split.
      - apply isDot_allDots. now apply (proj1 (Forall_forall _ _) Hdots).
      - apply andb_true_iff.
        split; apply negb_true_iff, Z.eqb_neq; intros ->; contradiction. }
    apply (NoDup_incl_length Hnd) in Hincl.
    rewrite two_missing, Hlen in Hincl by assumption. lia. }
  destruct Hsome as [d [Hd Hnew]]. exists d.
  split; [| split; assumption]. apply (f_equal Ok).
  apply singleton_list; [apply NoDup_filter, NoDup_allDots|].
  assert (Hunvisited : forall x, allowedb pat x = true -> ~ In x pat).
  { intros x Hx. unfold allowedb in Hx. apply andb_true_iff in Hx as [Hx _].
    apply mem_not_In. now apply negb_true_iff. }
  intros x. rewrite in_allowed. split.
  - intros [Hx Hal]. apply Huniq; auto.
  - intros ->. split; [assumption|].
    destruct (allowed_some pat d Hl Hd Hnew) as [m [Hm Hal]].
    assert (m = d) by (apply Huniq; auto). now subst.
Qed.

Lemma eight_dots_one_completion_witness :
  exists d, getAllowedNextDots [0; 1; 2; 5; 4; 3; 6; 7] = Ok [d] /\
            isDot d /\ ~ In d [0; 1; 2; 5; 4; 3; 6; 7].
Proof.
  apply (eight_dots_one_completion [0; 1; 2; 5; 4; 3; 6; 7]).
  - split; [discriminate | repeat constructor; unfold isDot; lia].
  - repeat constructor; simpl; intuition lia.
  - reflexivity.
Defined.


(** ** The output file *)

Lemma append_assoc (a b c : string) :
  ((a ++ b) ++ c)%string = (a ++ (b ++ c))%string.
Proof. induction a as [| x a IH]; simpl; [reflexivity | now rewrite IH]. Qed.

Lemma append_empty_r (a : string) : (a ++ EmptyString)%string = a.
Proof. induction a as [| x a IH]; simpl; [reflexivity | now rewrite IH]. Qed.

Lemma countChar_append (c : ascii) (a b : string) :
  countChar c (a ++ b) = (countChar c a + countChar c b)%nat.
Proof.
  induction a as [| x a IH]; simpl; [reflexivity|]. rewrite IH. lia.
Qed.

Lemma length_append (a b : string) :
  String.length (a ++ b) = (String.length a + String.length b)%nat.
Proof. induction a as [| x a IH]; simpl; [reflexivity | now rewrite IH]. Qed.

(** The whole file, as a pure function of the patterns. *)
Lemma lineOf_digits (p : list Z) :
  lineOf (Pattern p) = Ok (digitsOf p ++ newline)%string.
Proof.
  cbn [lineOf].
  assert (H : forall acc,
             for_each (fun toWrite result => Ok (toWrite ++ str result)%string)
                      p acc
             = Ok (acc ++ digitsOf p)%string).
  { induction p as [| d p IH]; intros acc; cbn [for_each digitsOf fold_right].
    - now rewrite append_empty_r.
    - cbn [bind]. rewrite IH. now rewrite append_assoc. }
  now rewrite H.
Qed.

Lemma writeAll_from (x : list entry) (written : string) :
  for_each (fun written pattern =>
              line <- lineOf pattern ;; Ok (written ++ line)%string)
           x written
  = tail <- writeAll x ;; Ok (written ++ tail)%string.
Proof.
  unfold writeAll. revert written.
  induction x as [| e x IH]; intros written; cbn [for_each].
  - cbn. now rewrite append_empty_r.
  - destruct (lineOf e) as [line | err]; cbn [bind]; [| reflexivity].
    rewrite IH, (IH (EmptyString ++ line)%string).
    destruct (for_each _ x EmptyString) as [tail | err]; cbn [bind];
      [| reflexivity].
    cbn [append]. now rewrite append_assoc.
Qed.

Lemma writeAll_cons (e : entry) (x : list entry) :
  writeAll (e :: x)
  = line <- lineOf e ;; tail <- writeAll x ;; Ok (line ++ tail)%string.
Proof.
  unfold writeAll at 1. cbn [for_each].
  destruct (lineOf e) as [line | err]; cbn [bind]; [| reflexivity].
  now rewrite writeAll_from.
Qed.

(** The digit of a dot. *)
Lemma str_dot (d : Z) :
  isDot d -> str d = String (digit d) EmptyString.
Proof. intros H. each_dot d H; reflexivity. Qed.

Lemma digit_inj (d e : Z) :
  isDot d -> isDot e ->
  digit d = digit e -> d = e.
Proof.
  intros Hd He. each_dot d Hd; each_dot e He; vm_compute; congruence.
Qed.

Lemma digit_not_newline (d : Z) :
  isDot d -> Ascii.eqb (digit d) "010"%char = false.
Proof. intros H. each_dot d H; reflexivity. Qed.

Lemma digitsOf_stats (p : list Z) :
  Forall isDot p ->
  countChar "010"%char (digitsOf p) = O /\
  String.length (digitsOf p) = length p.
Proof.
  induction 1 as [| d p Hd _ [IHc IHl]]; [now split|].
  cbn [digitsOf fold_right]. fold (digitsOf p). rewrite (str_dot d Hd).
  cbn [append countChar String.length length].
  rewrite (digit_not_newline d Hd), IHc, IHl. now split.
Qed.

(** For patterns over the grid the file holds one line per pattern, a
    line being the digits of the pattern and a newline: as many newlines as
    patterns, and one character per dot and per newline. *)
Theorem writeAll_one_line_each (ps : list (list Z)) :
  Forall (Forall isDot) ps ->
  exists content,
    writeAll (map Pattern ps) = Ok content /\
    linesWritten content = length ps /\
    String.length content = list_sum (map (fun p => S (length p)) ps).
Proof.
  unfold linesWritten.
  induction 1 as [| p ps Hp _ [tail [Htail [Hlines Hchars]]]].
  - exists EmptyString. repeat split.
  - exists ((digitsOf p ++ newline) ++ tail)%string. split; [| split].
    + cbn [map]. rewrite writeAll_cons, lineOf_digits. cbn [bind].
      now rewrite Htail.
    + destruct (digitsOf_stats p Hp) as [Hc _].
      rewrite !countChar_append, Hc, Hlines. reflexivity.
    + destruct (digitsOf_stats p Hp) as [_ Hl].
      rewrite !length_append, Hl, Hchars.
      change (String.length newline) with 1%nat.
      cbn [map]. unfold list_sum. cbn [fold_right]. lia.
Qed.

Lemma writeAll_one_line_each_witness :
  exists content,
    writeAll (map Pattern [[0; 1; 4]; [2; 5; 8; 7]]) = Ok content /\
    linesWritten content = length [[0; 1; 4]; [2; 5; 8; 7]] /\
    String.length content
    = list_sum (map (fun p => S (length p)) [[0; 1; 4]; [2; 5; 8; 7]]).
Proof.
  apply (writeAll_one_line_each [[0; 1; 4]; [2; 5; 8; 7]]).
  repeat constructor; unfold isDot; lia.
Defined.

(** The writing loop iterates over every entry, so a list that holds an
    integer where a pattern belongs cannot be written: [TypeError].  That
    is the case of the result of [findAllPatterns] for a target length of
    one or less. *)
Theorem writeAll_needs_patterns (x : list entry) (d L : Z) :
  In (Dot d) x -> L <= 1 ->
  writeAll x = Raise TypeError /\
  exists l, findAllPatterns L = Ok l /\ writeAll l = Raise TypeError.
Proof.
  intros Hin HL. split.
  - induction x as [| e x IH]; [contradiction|]. rewrite writeAll_cons.
    destruct e as [d' | p].
    + reflexivity.
    + rewrite lineOf_digits. cbn [bind].
      destruct Hin as [Heq | Hin]; [discriminate|]. now rewrite IH.
  - exists (map Dot allDots). split; [now apply findAllPatterns_short|].
    reflexivity.
Qed.

Lemma writeAll_needs_patterns_witness :
  writeAll [Pattern [0; 1; 4]; Dot 3] = Raise TypeError /\
  exists l, findAllPatterns 1 = Ok l /\ writeAll l = Raise TypeError.
Proof.
  apply (writeAll_needs_patterns [Pattern [0; 1; 4]; Dot 3] 3 1).
  - right. now left.
  - lia.
Defined.

Lemma line_inj (p q : list Z) :
  Forall isDot p -> Forall isDot q ->
  (digitsOf p ++ newline)%string = (digitsOf q ++ newline)%string -> p = q.
Proof.
  intros Hp. revert q. induction Hp as [| d p Hd _ IH]; intros q Hq Heq.
  - destruct Hq as [| e q He _]; [reflexivity|]. exfalso.
    cbn [digitsOf fold_right] in Heq. rewrite (str_dot e He) in Heq.
    cbn [append newline] in Heq. injection Heq as Hc _.
    pose proof (digit_not_newline e He) as Hne. rewrite <- Hc in Hne.
    discriminate Hne.
  - destruct Hq as [| e q He Hq].
    + exfalso. cbn [digitsOf fold_right] in Heq. rewrite (str_dot d Hd) in Heq.
      cbn [append newline] in Heq. injection Heq as Hc _.
      pose proof (digit_not_newline d Hd) as Hne. rewrite Hc in Hne.
      discriminate Hne.
    + cbn [digitsOf fold_right] in Heq.
      rewrite (str_dot d Hd), (str_dot e He) in Heq.
      cbn [append] in Heq. injection Heq as Hc Hrest.
      f_equal; [now apply digit_inj | now apply IH].
Qed.

(** Two patterns over the grid that are written as the same line are the
    same pattern, and the line has one character per dot besides the
    newline.  Off the grid this fails: [1,0] and [10] are both written
    as the line 10. *)
Theorem lineOf_injective_on_grid (p q : list Z) (a b : string) :
  Forall isDot p -> Forall isDot q ->
  lineOf (Pattern p) = Ok a -> lineOf (Pattern q) = Ok b ->
  String.length a = S (length p) /\
  (a = b -> p = q) /\
  lineOf (Pattern [1; 0]) = lineOf (Pattern [10]).
Proof.
  intros Hp Hq Ha Hb. rewrite lineOf_digits in Ha, Hb.
  injection Ha as <-. injection Hb as <-. split; [| split].
  - rewrite length_append. destruct (digitsOf_stats p Hp) as [_ ->].
    cbn. lia.
  - now apply line_inj.
  - reflexivity.
Qed.

Lemma lineOf_injective_on_grid_witness :
  String.length ("014" ++ newline) = S (length [0; 1; 4]) /\
  (("014" ++ newline)%string = ("014" ++ newline)%string ->
   [0; 1; 4] = [0; 1; 4]) /\
  lineOf (Pattern [1; 0]) = lineOf (Pattern [10]).
Proof.
  apply (lineOf_injective_on_grid [0; 1; 4] [0; 1; 4]);
    try reflexivity; repeat constructor; unfold isDot; lia.
Defined.

Lemma sum_of_lines (ps : list (list Z)) (n : nat) :
  (forall p, In p ps -> length p = n) ->
  list_sum (map (fun p => S (length p)) ps) = (length ps * S n)%nat.
Proof.
  induction ps as [| p ps IH]; intros H; [reflexivity|].
  cbn [map length].
  change (list_sum (S (length p) :: map (fun p => S (length p)) ps))
    with (S (length p) + list_sum (map (fun p => S (length p)) ps))%nat.
  rewrite IH by (intros q Hq; apply H; now right).
  rewrite (H p) by now left. lia.
Qed.

Lemma allCombinations_9 :
  allCombinations 9
  = patternsOfSize 3 ++ patternsOfSize 4 ++ patternsOfSize 5 ++
    patternsOfSize 6 ++ patternsOfSize 7 ++ patternsOfSize 8.
Proof.
  unfold allCombinations.
  change (range2 4 (9 + 1)) with [4; 5; 6; 7; 8; 9].
  cbn [flat_map]. rewrite app_nil_r.
  change (Z.to_nat (4 - 1)) with 3%nat. change (Z.to_nat (5 - 1)) with 4%nat.
  change (Z.to_nat (6 - 1)) with 5%nat. change (Z.to_nat (7 - 1)) with 6%nat.
  change (Z.to_nat (8 - 1)) with 7%nat. change (Z.to_nat (9 - 1)) with 8%nat.
  reflexivity.
Qed.

(** The script as a whole runs without an exception and leaves a file of
    389112 lines (as [wc -l] reports in the header of the script) and
    3489816 characters. *)
Theorem script_writes_389112_lines :
  exists content,
    script = Ok content /\
    Z.of_nat (linesWritten content) = 389112 /\
    Z.of_nat (String.length content) = 3489816.
Proof.
  assert (Hgrid : Forall (Forall isDot) (allCombinations 9)).
  { apply Forall_forall. intros p Hp. unfold allCombinations in Hp.
    apply in_flat_map in Hp as [L [_ Hp]].
    apply in_patternsOfSize in Hp as [s [Hs Hp]].
    apply (levelFrom_onGrid s _ p Hs Hp). }
  destruct (writeAll_one_line_each _ Hgrid) as [content [Hw [Hlines Hchars]]].
  exists content. split; [| split].
  - unfold script. replace test with (Ok tt) by (vm_compute; reflexivity).
    cbn [bind]. rewrite findAllCombinations_spec. cbn [bind]. exact Hw.
  - rewrite Hlines, allCombinations_9. rewrite !length_app.
    destruct level_sizes as (H3 & H4 & H5 & H6 & H7 & H8).
    rewrite !Nat2Z.inj_add, H3, H4, H5, H6, H7, H8. reflexivity.
  - rewrite Hchars, allCombinations_9. rewrite !map_app, !list_sum_app.
    rewrite (sum_of_lines (patternsOfSize 3) 4),
      (sum_of_lines (patternsOfSize 4) 5), (sum_of_lines (patternsOfSize 5) 6),
      (sum_of_lines (patternsOfSize 6) 7), (sum_of_lines (patternsOfSize 7) 8),
      (sum_of_lines (patternsOfSize 8) 9)
      by (intros p Hp; now apply in_patternsOfSize_length in Hp).
    destruct level_sizes as (H3 & H4 & H5 & H6 & H7 & H8).
    rewrite !Nat2Z.inj_add, !Nat2Z.inj_mul, H3, H4, H5, H6, H7, H8.
    reflexivity.
Qed.
